(** * Script jobs of the SaaS Builder Toolkit: a shallow embedding

    The development follows two source files.

    - [lambda-script-job.ts] (class [LambdaScriptJob]): a CDK construct that
      builds a Lambda function running a shell script and a Step Functions
      state machine around it: invoke the function, then put a success event
      on the event bus; a catch on the invocation leads to a task that puts
      a failure event.
    - [docker/tenantprov/index.js]: a Lambda handler that writes the script it
      is given to a file, runs it with bash and answers [{output}] or
      [{error}].

    The construct only builds a description of the workflow, so the file has
    three layers: the JSON data the workflow moves around, the description
    the construct builds (translated from the TypeScript), and the meaning of
    such a description in the Amazon States Language, which is what gives the
    construct a behaviour on an incoming event. *)

From Stdlib Require Import String Ascii List ZArith Bool DecimalString.
Import ListNotations.
Open Scope string_scope.

Set Implicit Arguments.
Set Warnings "-register-all".

(** ** JSON values *)

(** Numbers are kept as integers: the workflow never computes with them. *)
Inductive json : Type :=
| JNull
| JBool (b : bool)
| JNum (n : Z)
| JStr (s : string)
| JArr (items : list json)
| JObj (fields : list (string * json)).

(** ** JavaScript objects used as maps

    An object is kept as the list of its entries in insertion order.
    Assigning to a key that exists replaces the value in place, assigning to
    a new key appends it, as [o[k] = v] does. *)
Module Obj.
Section Entries.
Context {V : Type}.

Fixpoint get (k : string) (o : list (string * V)) : option V :=
  match o with
  | [] => None
  | (k', v) :: rest => if String.eqb k k' then Some v else get k rest
  end.

Fixpoint set (k : string) (v : V) (o : list (string * V)) : list (string * V) :=
  match o with
  | [] => [(k, v)]
  | (k', v') :: rest =>
      if String.eqb k k' then (k', v) :: rest else (k', v') :: set k v rest
  end.

Definition keys (o : list (string * V)) : list string := map fst o.

(** [Object.assign(target, source)] *)
Definition assign (target source : list (string * V)) : list (string * V) :=
  fold_left (fun acc kv => set (fst kv) (snd kv) acc) source target.

Definition has (k : string) (o : list (string * V)) : bool :=
  match get k o with Some _ => true | None => false end.
End Entries.
End Obj.

(** [xs?.forEach(f)] where [f] updates an accumulator: nothing happens when
    the optional array is absent. *)
Definition forEach {A S : Type} (xs : option (list A)) (f : S -> A -> S) (init : S) : S :=
  match xs with
  | Some l => fold_left f l init
  | None => init
  end.

(** ** JSONPath, dot notation

    The construct only writes paths of the form [$.a.b.c].  A path is cut at
    its dots; the first piece must be [$]. *)
Fixpoint segments (s : string) : list string :=
  match s with
  | EmptyString => [EmptyString]
  | String c rest =>
      if Ascii.eqb c "."%char then EmptyString :: segments rest
      else match segments rest with
           | seg :: more => String c seg :: more
           | [] => [String c EmptyString]
           end
  end.

Definition parse_path (p : string) : option (list string) :=
  match segments p with
  | "$" :: members => Some members
  | _ => None
  end.

Fixpoint select (members : list string) (j : json) : option json :=
  match members with
  | [] => Some j
  | k :: rest =>
      match j with
      | JObj fields =>
          match Obj.get k fields with
          | Some child => select rest child
          | None => None
          end
      | _ => None
      end
  end.

Definition read_path (p : string) (input : json) : option json :=
  match parse_path p with
  | Some members => select members input
  | None => None
  end.

(** Writing a task result at a [ResultPath]: missing intermediate objects are
    created, a member of something that is not an object cannot be written. *)
Fixpoint nest (members : list string) (v : json) : json :=
  match members with
  | [] => v
  | k :: rest => JObj [(k, nest rest v)]
  end.

Fixpoint insert_at (members : list string) (v : json) (j : json) : option json :=
  match members with
  | [] => Some v
  | k :: rest =>
      match j with
      | JObj fields =>
          match Obj.get k fields with
          | Some child =>
              match insert_at rest v child with
              | Some child' => Some (JObj (Obj.set k child' fields))
              | None => None
              end
          | None => Some (JObj (Obj.set k (nest rest v) fields))
          end
      | _ => None
      end
  end.

Definition write_path (p : string) (v : json) (input : json) : option json :=
  match parse_path p with
  | Some members => insert_at members v input
  | None => None
  end.

(** ** Task input templates

    What [TaskInput.fromObject] receives: plain data mixed with [JsonPath]
    tokens, which Step Functions resolves against the state input when the
    task starts. *)
Inductive Template : Type :=
| Literal (j : json)
| StringAt (path : string)              (* JsonPath.stringAt(path) *)
| ObjectAt (path : string)              (* JsonPath.objectAt(path) *)
| JsonToString (value : Template)       (* JsonPath.jsonToString(value) *)
| ObjectT (fields : list (string * Template)).

Inductive Resolved (A : Type) : Type :=
| Found (a : A)
| Missing (path : string).
Arguments Missing {A} path.

Definition bindR {A B : Type} (r : Resolved A) (k : A -> Resolved B) : Resolved B :=
  match r with
  | Found a => k a
  | Missing p => Missing p
  end.

Notation "x <-? r ;; k" := (bindR r (fun x => k))
  (at level 61, r at next level, right associativity).

Section Render.
(** The intrinsic [States.JsonToString]. *)
Variable json_to_string : json -> string.

Fixpoint render (input : json) (t : Template) : Resolved json :=
  match t with
  | Literal j => Found j
  | StringAt p | ObjectAt p =>
      match read_path p input with
      | Some v => Found v
      | None => Missing p
      end
  | JsonToString value =>
      v <-? render input value ;; Found (JStr (json_to_string v))
  | ObjectT fields =>
      let fix members (fs : list (string * Template)) : Resolved (list (string * json)) :=
        match fs with
        | [] => Found []
        | (k, t') :: rest =>
            v <-? render input t' ;;
            vs <-? members rest ;;
            Found ((k, v) :: vs)
        end in
      o <-? members fields ;; Found (JObj o)
  end.

Fixpoint render_members (input : json) (fs : list (string * Template))
  : Resolved (list (string * json)) :=
  match fs with
  | [] => Found []
  | (k, t) :: rest =>
      v <-? render input t ;;
      vs <-? render_members input rest ;;
      Found ((k, v) :: vs)
  end.

End Render.

(** ** Configuration of a script job *)

(** Modelled from the spec: the enumeration [DetailType] of [utils] is not
    among the sources.  These are the event kinds of the data model (section
    3) and of the two lifecycle jobs (section 4.4). *)
Inductive DetailType : Type :=
| ONBOARDING_REQUEST
| PROVISION_SUCCESS
| PROVISION_FAILURE
| OFFBOARDING_REQUEST
| DEPROVISION_SUCCESS
| DEPROVISION_FAILURE.

(** Modelled from the spec: the interface [IEventManager] of [utils] is not
    among the sources.  The construct reads the bus identifier and the
    registry that gives each event kind its source. *)
Record IEventManager : Type := {
  busArn : string;
  supportedEvents : DetailType -> string
}.

Record OutgoingEvent : Type := {
  success : DetailType;
  failure : DetailType
}.

(** Modelled from the spec: the interface [ScriptJobProps] of [script-job.ts]
    is not among the sources.  The fields are the ones [LambdaScriptJob]
    reads, with the types of the job specification of section 3; an optional
    property is an [option].  The access policy ([permissions]) plays no part
    in the handling of an event and is left out.

    In the words of the spec: [environmentStringVariablesFromIncomingEvent]
    is [stringVarsFromEvent], [environmentJSONVariablesFromIncomingEvent] is
    [jsonVarsFromEvent], [environmentVariablesToOutgoingEvent] is
    [outputVarsToEvent], [scriptEnvironmentVariables] is [staticEnvVars] and
    [jobFailureStatus] is [failurePayload]. *)
Record ScriptJobProps : Type := {
  jobIdentifierKey : string;
  script : string;
  postScript : option string;
  incomingEvent : DetailType;
  outgoingEvent : OutgoingEvent;
  environmentStringVariablesFromIncomingEvent : option (list string);
  environmentJSONVariablesFromIncomingEvent : option (list string);
  environmentVariablesToOutgoingEvent : option (list string);
  scriptEnvironmentVariables : option (list (string * string));
  jobFailureStatus : list (string * json);
  eventManager : IEventManager
}.

(** ** The description built by the construct *)

(** [cdk.Duration], in seconds. *)
Definition Duration : Type := Z.
Definition Duration_minutes (n : Z) : Duration := (60 * n)%Z.
Definition Duration_hours (n : Z) : Duration := (3600 * n)%Z.

Inductive Runtime : Type := NODEJS_20_X.

(** The inline code of the function is a fixed program with the script
    spliced in, so a function's code is given by the script. *)
Record LambdaFunction : Type := {
  fn_runtime : Runtime;
  fn_handler : string;
  fn_script : string;
  fn_environment : list (string * string);
  fn_timeout : Duration
}.

Record PutEventsEntry : Type := {
  entry_detailType : DetailType;
  entry_detail : Template;
  entry_source : string;
  entry_eventBus : string
}.

Inductive Resource : Type :=
| LambdaInvoke (lambdaFunction : LambdaFunction) (payload : Template)
| EventBridgePutEvents (entries : list PutEventsEntry).

(** A retrier of a task state: the error names it covers, the seconds
    before the first retry, the number of retries and the rate at which the
    interval grows. *)
Record Retrier : Type := {
  retry_errors : list string;
  retry_interval : Duration;
  retry_maxAttempts : nat;
  retry_backoffRate : Z
}.

(** A task state: its retriers and its catchers are kept in the order they
    were added, a catcher with the error names it covers, its result path
    and the state it leads to. *)
Inductive State : Type :=
| Task (id : string) (resource : Resource) (resultPath : string)
       (retriers : list Retrier)
       (catchers : list (list string * string * State))
       (next_state : option State).

(** [state.addRetry({errors, interval, maxAttempts, backoffRate})] *)
Definition addRetry (s : State) (r : Retrier) : State :=
  match s with
  | Task id res rp rs cs n => Task id res rp (rs ++ [r]) cs n
  end.

(** [state.addCatch(handler, {errors, resultPath})] *)
Definition addCatch (s handler : State) (errors : list string) (resultPath : string)
  : State :=
  match s with
  | Task id r rp rs cs n => Task id r rp rs (cs ++ [(errors, resultPath, handler)]) n
  end.

(** [state.next(following)] *)
Definition next (s following : State) : State :=
  match s with
  | Task id r rp rs cs _ => Task id r rp rs cs (Some following)
  end.

(** The transient errors of the Lambda service. *)
Definition lambdaServiceExceptions : list string :=
  ["Lambda.ClientExecutionTimeoutException"; "Lambda.ServiceException";
   "Lambda.AWSLambdaException"; "Lambda.SdkClientException"].

(** [new tasks.LambdaInvoke(scope, id, {lambdaFunction, resultPath, payload})]
    of [aws-cdk-lib].  The option [retryOnServiceExceptions] is on unless it
    is switched off, and the construct does not switch it off: the task is
    created with a retry on the transient errors of the Lambda service, six
    times, after two seconds at first and twice as long each time. *)
Definition new_LambdaInvoke (id : string) (lambdaFunction : LambdaFunction)
    (resultPath : string) (payload : Template) : State :=
  addRetry (Task id (LambdaInvoke lambdaFunction payload) resultPath [] [] None)
    {| retry_errors := lambdaServiceExceptions;
       retry_interval := 2%Z;
       retry_maxAttempts := 6;
       retry_backoffRate := 2%Z |}.

(** [new tasks.EventBridgePutEvents(scope, id, {entries, resultPath})]: the
    task has no retry of its own. *)
Definition new_EventBridgePutEvents (id : string) (entries : list PutEventsEntry)
    (resultPath : string) : State :=
  Task id (EventBridgePutEvents entries) resultPath [] [] None.

Record StateMachine : Type := {
  definition : State;
  sm_timeout : option Duration;
  tracingEnabled : bool
}.

(** [createLambdaFunction]: the environment of the function is a copy of the
    static variables of the job. *)
Definition createLambdaFunction (props : ScriptJobProps) : LambdaFunction :=
  let environmentVariables :=
    match scriptEnvironmentVariables props with
    | Some vars => Obj.assign [] vars
    | None => []
    end in
  {| fn_runtime := NODEJS_20_X;
     fn_handler := "index.handler";
     fn_script := script props;
     fn_environment := environmentVariables;
     fn_timeout := Duration_minutes 15 |}.

(** [exportedVarObj.jobOutput[exportedVar] = token] *)
Definition set_jobOutput (exportedVar : string) (token : Template)
    (exportedVarObj : list (string * Template)) : list (string * Template) :=
  match Obj.get "jobOutput" exportedVarObj with
  | Some (ObjectT jobOutput) =>
      Obj.set "jobOutput" (ObjectT (Obj.set exportedVar token jobOutput)) exportedVarObj
  | _ => exportedVarObj
  end.

(** [createProvisioningStateMachine].  The constants of the method body are
    given one definition each, under the names they have there. *)

(** The variables taken from the incoming event: first the string ones, then
    the JSON ones, each assigned under its own name. *)
Definition environmentVariablesOverride (props : ScriptJobProps)
  : list (string * Template) :=
  forEach (environmentJSONVariablesFromIncomingEvent props)
    (fun acc importedVar =>
       Obj.set importedVar (JsonToString (ObjectAt ("$.detail." ++ importedVar))) acc)
    (forEach (environmentStringVariablesFromIncomingEvent props)
       (fun acc importedVar =>
          Obj.set importedVar (StringAt ("$.detail." ++ importedVar)) acc)
       []).

Definition startLambdaTask (props : ScriptJobProps)
    (jobRunnerLambdaFunction : LambdaFunction) : State :=
  new_LambdaInvoke "startLambda" jobRunnerLambdaFunction "$.startLambda"
    (ObjectT (environmentVariablesOverride props)).

(** The detail of the success event: the object literal, then the loop over
    the names to export. *)
Definition exportedVarObj (props : ScriptJobProps) : list (string * Template) :=
  forEach (environmentVariablesToOutgoingEvent props)
    (fun acc exportedVar =>
       set_jobOutput exportedVar
         (StringAt ("$.startLambda.Payload.output." ++ exportedVar)) acc)
    (Obj.set "jobOutput" (ObjectT [])
       (Obj.set (jobIdentifierKey props)
          (StringAt ("$.detail." ++ jobIdentifierKey props)) [])).

Definition notifySuccessEventBridgeTask (props : ScriptJobProps) (eventBus : string)
  : State :=
  let successEventSource :=
    supportedEvents (eventManager props) (success (outgoingEvent props)) in
  let detailType := outgoingEvent props in
  new_EventBridgePutEvents "notifySuccessEventBridgeTask"
    [ {| entry_detailType := success detailType;
         entry_detail := ObjectT (exportedVarObj props);
         entry_source := successEventSource;
         entry_eventBus := eventBus |} ]
    "$.notifySuccessEventBridgeTask".

(** The detail of the failure event. *)
Definition failureDetail (props : ScriptJobProps) : list (string * Template) :=
  Obj.set "jobOutput" (Literal (JObj (jobFailureStatus props)))
    (Obj.set (jobIdentifierKey props)
       (StringAt ("$.detail." ++ jobIdentifierKey props)) []).

Definition notifyFailureEventBridgeTask (props : ScriptJobProps) (eventBus : string)
  : State :=
  let failureEventSource :=
    supportedEvents (eventManager props) (failure (outgoingEvent props)) in
  let detailType := outgoingEvent props in
  new_EventBridgePutEvents "notifyFailureEventBridgeTask"
    [ {| entry_detailType := failure detailType;
         entry_detail := ObjectT (failureDetail props);
         entry_source := failureEventSource;
         entry_eventBus := eventBus |} ]
    "$.notifyFailureEventBridgeTask".

Definition createProvisioningStateMachine (props : ScriptJobProps)
    (jobRunnerLambdaFunction : LambdaFunction) (eventBus : string) : StateMachine :=
  let startLambdaTask :=
    addCatch (startLambdaTask props jobRunnerLambdaFunction)
      (notifyFailureEventBridgeTask props eventBus) ["States.ALL"]
      "$.startLambda.Catch" in
  let definition := next startLambdaTask (notifySuccessEventBridgeTask props eventBus) in
  {| definition := definition;
     sm_timeout := Some (Duration_hours 1);
     tracingEnabled := true |}.

(** The constructor of [LambdaScriptJob]. *)
Record LambdaScriptJob : Type := {
  lambdaFunction_of : LambdaFunction;
  provisioningStateMachine : StateMachine;
  job_incomingEvent : DetailType
}.

Definition newLambdaScriptJob (props : ScriptJobProps) : LambdaScriptJob :=
  let eventBus := busArn (eventManager props) in
  let lambdaFunction := createLambdaFunction props in
  {| lambdaFunction_of := lambdaFunction;
     provisioningStateMachine :=
       createProvisioningStateMachine props lambdaFunction eventBus;
     job_incomingEvent := incomingEvent props |}.

(** ** The two lifecycle jobs ([lambda-tenant-lifecycle-script-jobs.ts]) *)

Record TenantLifecycleLambdaScriptJobProps : Type := {
  tl_script : string;
  tl_postScript : option string;
  tl_environmentStringVariablesFromIncomingEvent : option (list string);
  tl_environmentJSONVariablesFromIncomingEvent : option (list string);
  tl_environmentVariablesToOutgoingEvent : option (list string);
  tl_scriptEnvironmentVariables : option (list (string * string));
  tl_eventManager : IEventManager
}.

(** The spread [...props] followed by the fixed properties. *)
Definition lifecycleProps (props : TenantLifecycleLambdaScriptJobProps)
    (status : string) (incoming succeeded failed : DetailType) : ScriptJobProps :=
  {| jobIdentifierKey := "tenantId";
     script := tl_script props;
     postScript := tl_postScript props;
     incomingEvent := incoming;
     outgoingEvent := {| success := succeeded; failure := failed |};
     environmentStringVariablesFromIncomingEvent :=
       tl_environmentStringVariablesFromIncomingEvent props;
     environmentJSONVariablesFromIncomingEvent :=
       tl_environmentJSONVariablesFromIncomingEvent props;
     environmentVariablesToOutgoingEvent :=
       tl_environmentVariablesToOutgoingEvent props;
     scriptEnvironmentVariables := tl_scriptEnvironmentVariables props;
     jobFailureStatus := [("tenantStatus", JStr status)];
     eventManager := tl_eventManager props |}.

Definition ProvisioningLambdaScriptJob (props : TenantLifecycleLambdaScriptJobProps)
  : LambdaScriptJob :=
  newLambdaScriptJob
    (lifecycleProps props "Failed to provision tenant."
       ONBOARDING_REQUEST PROVISION_SUCCESS PROVISION_FAILURE).

Definition DeprovisioningLambdaScriptJob (props : TenantLifecycleLambdaScriptJobProps)
  : LambdaScriptJob :=
  newLambdaScriptJob
    (lifecycleProps props "Failed to deprovision tenant."
       OFFBOARDING_REQUEST DEPROVISION_SUCCESS DEPROVISION_FAILURE).

(** ** Running a state machine

    The meaning of a task state in the Amazon States Language, as far as the
    states above use it:

    - the parameters of the task are resolved against the state input; a
      path that is not found ends the execution with [States.Runtime], which
      no retrier and no catcher covers, and the service is not called;
    - the service is called; its result is written into the input at the
      result path of the task and the execution goes on with the next state,
      or ends when there is none;
    - when the call fails, the first retrier covering the error name decides:
      while it has attempts left the task is made again, on the same input;
    - when the call fails and is not made again, the first catcher covering
      the error name gets the input with the error written at its own result
      path; with no such catcher the execution fails.

    A service answers a call by what it is called with, so the attempts of
    one task are answered alike; each of them is in the trace.  The time
    between the attempts and the limit on the size of a result are left
    out. *)

Inductive InvokeResult : Type :=
| Returned (payload : json)
| Raised (error cause : string).

Record EventEntry : Type := {
  DetailType_of : DetailType;
  Detail : json;
  Source : string;
  EventBusName : string
}.

Inductive PutResult : Type :=
| Accepted (response : json)
| Rejected (error cause : string).

(** The services a state machine talks to.  Each answers a call by what it
    is called with. *)
Record Platform : Type := {
  json_to_string : json -> string;
  lambda_invoke : LambdaFunction -> json -> InvokeResult;
  put_events : list EventEntry -> PutResult
}.

(** What an execution did, in order. *)
Inductive Effect : Type :=
| Invoked (fn : LambdaFunction) (payload : json)
| Published (task : string) (entry : EventEntry).

Inductive TaskOutcome : Type :=
| TaskSucceeded (result : json)
| TaskFailed (error cause : string)
| TaskAborted (path : string).

Inductive ExecutionStatus : Type :=
| SUCCEEDED (output : json)
| FAILED (error cause : string).

(** The entry put on the bus for an entry of the task and its resolved
    detail. *)
Definition entry_of (e : PutEventsEntry) (d : json) : EventEntry :=
  {| DetailType_of := entry_detailType e;
     Detail := d;
     Source := entry_source e;
     EventBusName := entry_eventBus e |}.

Fixpoint render_entries (P : Platform) (input : json) (entries : list PutEventsEntry)
  : Resolved (list EventEntry) :=
  match entries with
  | [] => Found []
  | e :: rest =>
      d <-? render (json_to_string P) input (entry_detail e) ;;
      es <-? render_entries P input rest ;;
      Found (entry_of e d :: es)
  end.

(** One task: resolve its parameters, call the service, and report what the
    call gave together with what it did.  The result of [LambdaInvoke] is the
    response of the invocation, with the answer of the function under
    [Payload]. *)
Definition perform (P : Platform) (id : string) (r : Resource) (input : json)
  : TaskOutcome * list Effect :=
  match r with
  | LambdaInvoke fn payload =>
      match render (json_to_string P) input payload with
      | Missing p => (TaskAborted p, [])
      | Found request =>
          match lambda_invoke P fn request with
          | Returned v =>
              (TaskSucceeded (JObj [("Payload", v); ("StatusCode", JNum 200)]),
               [Invoked fn request])
          | Raised e c => (TaskFailed e c, [Invoked fn request])
          end
      end
  | EventBridgePutEvents entries =>
      match render_entries P input entries with
      | Missing p => (TaskAborted p, [])
      | Found es =>
          match put_events P es with
          | Accepted response => (TaskSucceeded response, map (Published id) es)
          | Rejected e c => (TaskFailed e c, [])
          end
      end
  end.

(** Error names a retrier or a catcher covers: [States.ALL] covers every
    error a task reports, [States.TaskFailed] every one but a timeout.  The
    error none covers, [States.Runtime], is raised while the parameters are
    resolved and is [TaskAborted] above: it never reaches them. *)
Definition covers (pattern error : string) : bool :=
  (pattern =? "States.ALL") ||
  ((pattern =? "States.TaskFailed") && negb (error =? "States.Timeout")) ||
  (pattern =? error).

Definition error_matches (errors : list string) (error : string) : bool :=
  existsb (fun pattern => covers pattern error) errors.

Definition error_output (error cause : string) : json :=
  JObj [("Error", JStr error); ("Cause", JStr cause)].

Definition missing_path_cause (path : string) : string :=
  "The JSONPath '" ++ path ++ "' could not be found in the input".

(** The retriers of a task with the attempts each has left.  An error is
    answered by the first retrier that covers it: with an attempt left, the
    task is made again and that retrier has one less. *)
Definition fresh_retriers (retriers : list Retrier) : list (Retrier * nat) :=
  map (fun r => (r, retry_maxAttempts r)) retriers.

Fixpoint retry_with (error : string) (left : list (Retrier * nat))
  : option (list (Retrier * nat)) :=
  match left with
  | [] => None
  | (r, n) :: rest =>
      if error_matches (retry_errors r) error then
        match n with
        | O => None
        | S n' => Some ((r, n') :: rest)
        end
      else
        match retry_with error rest with
        | Some rest' => Some ((r, n) :: rest')
        | None => None
        end
  end.

Definition attempts_left (left : list (Retrier * nat)) : nat :=
  fold_right (fun rn total => snd rn + total) 0 left.

(** A task with its retries: [budget] bounds the retries still to make and
    starts as the sum of the attempts of the retriers, which every retry
    lowers by one. *)
Fixpoint attempt (P : Platform) (id : string) (r : Resource) (input : json)
    (budget : nat) (left : list (Retrier * nat)) : TaskOutcome * list Effect :=
  let '(outcome, done) := perform P id r input in
  match outcome with
  | TaskFailed error cause =>
      match budget, retry_with error left with
      | S budget', Some left' =>
          let '(outcome', later) := attempt P id r input budget' left' in
          (outcome', (done ++ later)%list)
      | _, _ => (outcome, done)
      end
  | _ => (outcome, done)
  end.

Fixpoint run (P : Platform) (s : State) (input : json) : ExecutionStatus * list Effect :=
  match s with
  | Task id r rp retriers catchers following =>
      let '(outcome, done) :=
        attempt P id r input (attempts_left (fresh_retriers retriers))
                (fresh_retriers retriers) in
      let caught :=
        fix caught (cs : list (list string * string * State)) (error cause : string)
          : ExecutionStatus * list Effect :=
          match cs with
          | [] => (FAILED error cause, done)
          | (errors, crp, handler) :: rest =>
              if error_matches errors error then
                match write_path crp (error_output error cause) input with
                | Some out =>
                    let '(status, later) := run P handler out in
                    (status, (done ++ later)%list)
                | None => (FAILED "States.ResultPathMatchFailure" crp, done)
                end
              else caught rest error cause
          end in
      match outcome with
      | TaskAborted p => (FAILED "States.Runtime" (missing_path_cause p), done)
      | TaskFailed error cause => caught catchers error cause
      | TaskSucceeded result =>
          match write_path rp result input with
          | Some out =>
              match following with
              | Some n =>
                  let '(status, later) := run P n out in
                  (status, (done ++ later)%list)
              | None => (SUCCEEDED out, done)
              end
          | None => caught catchers "States.ResultPathMatchFailure" rp
          end
      end
  end.

(** ** Incoming events *)

Record EventEnvelope : Type := {
  kind : DetailType;
  source : string;
  detail : list (string * json)
}.

(** Modelled from the spec: the strings behind [DetailType] are not among
    the sources; the names of section 3 are used. *)
Definition DetailType_name (k : DetailType) : string :=
  match k with
  | ONBOARDING_REQUEST => "OnboardingRequest"
  | PROVISION_SUCCESS => "ProvisionSuccess"
  | PROVISION_FAILURE => "ProvisionFailure"
  | OFFBOARDING_REQUEST => "OffboardingRequest"
  | DEPROVISION_SUCCESS => "DeprovisionSuccess"
  | DEPROVISION_FAILURE => "DeprovisionFailure"
  end.

(** The input of an execution started by a rule of the bus is the event. *)
Definition event_input (e : EventEnvelope) : json :=
  JObj [("detail-type", JStr (DetailType_name (kind e)));
        ("source", JStr (source e));
        ("detail", JObj (detail e))].

(** Handling one incoming event with the state machine of a job. *)
Definition handle (P : Platform) (props : ScriptJobProps) (e : EventEnvelope)
  : ExecutionStatus * list Effect :=
  run P (definition (provisioningStateMachine (newLambdaScriptJob props)))
      (event_input e).

Definition published (trace : list Effect) : list (string * EventEntry) :=
  flat_map (fun eff => match eff with
                       | Published task entry => [(task, entry)]
                       | Invoked _ _ => []
                       end) trace.

Definition invocations (trace : list Effect) : list (LambdaFunction * json) :=
  flat_map (fun eff => match eff with
                       | Invoked fn payload => [(fn, payload)]
                       | Published _ _ => []
                       end) trace.

(** ** The code of the function built by [createLambdaFunction]

    The code of the function is the text of a program into which the script
    is spliced between two backticks, [exec(`<script>`, callback)]: in the
    program the script is the text of a template literal.

    When that literal denotes the script as it is written, the handler runs
    the script with [child_process.exec] and settles a promise from the
    callback: rejected with [{error: stderr}] when [exec] reports an error,
    resolved with [{output: stdout}] otherwise.  [exec] is called without
    options, so the script gets the environment of the Node.js process,
    which is the environment configured on the function.  The handler does
    not read its [event] argument.

    A script with a backtick, a backslash, a substitution [${...}] or a
    carriage return makes another program: the literal denotes another
    command, or evaluates expressions of the script inside the handler, or
    ends before the script does.  What invoking such a function gives is
    left to the host. *)

Definition backtick : ascii := ascii_of_nat 96.
Definition backslash : ascii := ascii_of_nat 92.
Definition carriage_return : ascii := ascii_of_nat 13.

(** The texts a template literal denotes as they are written. *)
Fixpoint template_text (s : string) : bool :=
  match s with
  | EmptyString => true
  | String c rest =>
      negb (Ascii.eqb c backtick) &&
      negb (Ascii.eqb c backslash) &&
      negb (Ascii.eqb c carriage_return) &&
      negb (Ascii.eqb c "$"%char &&
            match rest with
            | String c' _ => Ascii.eqb c' "{"%char
            | EmptyString => false
            end) &&
      template_text rest
  end.

Record ExecOutcome : Type := {
  exec_error : option string;     (* message of the error, if any *)
  exec_stdout : string;
  exec_stderr : string;
  exec_seconds : Z                (* time the command took *)
}.

(** The host of a Node.js function: what running a command in a given
    environment gives, the error name under which the Lambda service reports
    a rejected promise, and what invoking a function gives when its script
    is not [template_text]. *)
Record NodeHost : Type := {
  exec : list (string * string) -> string -> ExecOutcome;
  rejection_error : json -> string;
  other_program : LambdaFunction -> json -> InvokeResult
}.

Inductive Settled : Type :=
| Resolve (value : json)
| Reject (reason : json).

(** The handler of the program, for a script that is [template_text]. *)
Definition inline_handler (H : NodeHost) (script : string)
    (process_env : list (string * string)) (event : json) : Settled :=
  let r := exec H process_env script in
  match exec_error r with
  | Some _ => Reject (JObj [("error", JStr (exec_stderr r))])
  | None => Resolve (JObj [("output", JStr (exec_stdout r))])
  end.

(** The environment in which the script of an invocation runs, for a script
    that is [template_text]. *)
Definition script_environment (fn : LambdaFunction) (event : json)
  : list (string * string) :=
  fn_environment fn.

(** Invoking the function: the service stops it when it runs longer than its
    timeout and reports that as an error; a rejected promise is an error of
    the function; a resolved one is the payload of the answer. *)
Definition invoke_function (H : NodeHost) (to_string : json -> string)
    (fn : LambdaFunction) (event : json) : InvokeResult :=
  let process_env := script_environment fn event in
  if template_text (fn_script fn) then
    if (fn_timeout fn <? exec_seconds (exec H process_env (fn_script fn)))%Z
    then Raised "Sandbox.Timedout" "Task timed out"
    else match inline_handler H (fn_script fn) process_env event with
         | Resolve value => Returned value
         | Reject reason => Raised (rejection_error H reason) (to_string reason)
         end
  else other_program H fn event.

(** The platform of a job run on the function the construct builds for it:
    the invocations go to the inline code, on a given host. *)
Definition own_platform (H : NodeHost) (to_string : json -> string)
    (bus : list EventEntry -> PutResult) : Platform :=
  {| json_to_string := to_string;
     lambda_invoke := invoke_function H to_string;
     put_events := bus |}.

(** ** The tenant provisioning handler ([docker/tenantprov/index.js]) *)
Module Tenantprov.

(** A JavaScript value read from the event: a JSON value or [undefined]. *)
Definition jsvalue : Type := option json.

Definition truthy (v : jsvalue) : bool :=
  match v with
  | None => false
  | Some JNull => false
  | Some (JBool b) => b
  | Some (JNum n) => negb (n =? 0)%Z
  | Some (JStr s) => negb (s =? EmptyString)
  | Some (JArr _) => true
  | Some (JObj _) => true
  end.

(** [event.script]: reading a property of [null] throws, a property that is
    not there is [undefined]. *)
Definition event_script (event : json) : string + jsvalue :=
  match event with
  | JNull => inl "Cannot read properties of null (reading 'script')"
  | JObj fields => inr (Obj.get "script" fields)
  | _ => inr None
  end.

(** The machine the handler runs on, with states [W]: writing a file either
    gives a new state or fails with a message; running a command in a state
    gives what [exec] reports. *)
Record Host (W : Type) : Type := {
  writeFile : W -> string -> json -> W + string;
  execCommand : W -> string -> ExecOutcome
}.

Inductive Answer : Type :=
| output (stdout : string)
| error (message : string).

Definition answer_json (a : Answer) : json :=
  match a with
  | output stdout => JObj [("output", JStr stdout)]
  | error message => JObj [("error", JStr message)]
  end.

Definition defaultScript : string :=
  "#!/bin/bash" ++ String (ascii_of_nat 10) "echo " ++ String (ascii_of_nat 34)
  "No script provided!" ++ String (ascii_of_nat 34) EmptyString.

Definition scriptPath : string := "/tmp/prov-script.sh".

(** The command that runs the script. *)
Definition command : string := "/bin/bash " ++ scriptPath.

(** [event.script || default] *)
Definition scriptContent (script : jsvalue) : json :=
  match script with
  | Some v => if truthy script then v else JStr defaultScript
  | None => JStr defaultScript
  end.

(** The handler: every exception of the body is caught and answered as
    [{error: message}]. *)
Definition handler {W : Type} (H : Host W) (w : W) (event : json) : Answer :=
  match event_script event with
  | inl message => error message
  | inr script =>
      match writeFile H w scriptPath (scriptContent script) with
      | inr message => error message
      | inl w' =>
          let r := execCommand H w' command in
          match exec_error r with
          | Some message => error message
          | None =>
              if negb (exec_stderr r =? EmptyString)
              then error ("Script execution error: " ++ exec_stderr r)
              else output (exec_stdout r)
          end
      end
  end.

(** An event without a usable script: the field is missing or falsy. *)
Definition no_script (event : json) : bool :=
  match event_script event with
  | inr script => negb (truthy script)
  | inl _ => false
  end.

(** What the default script prints when bash runs it. *)
Definition defaultOutput : string :=
  "No script provided!" ++ String (ascii_of_nat 10) EmptyString.

(** The handler as the function behind a [LambdaInvoke] task: an [async]
    function that returns is an invocation that succeeds, whatever it
    returns. *)
Definition invoke {W : Type} (H : Host W) (w : W) (fn : LambdaFunction) (event : json)
  : InvokeResult :=
  Returned (answer_json (handler H w event)).

End Tenantprov.

(** ** Vocabulary of the statements *)

(** Field names written with letters, digits and underscores: the names for
    which the dot notation [$.detail.name] denotes the member [name]. *)
Definition identifier_char (c : ascii) : bool :=
  let n := nat_of_ascii c in
  (Nat.leb 48 n && Nat.leb n 57) || (Nat.leb 65 n && Nat.leb n 90) ||
  (Nat.leb 97 n && Nat.leb n 122) || Nat.eqb n 95.

Fixpoint all_chars (p : ascii -> bool) (s : string) : bool :=
  match s with
  | EmptyString => true
  | String c rest => p c && all_chars p rest
  end.

Definition identifier (s : string) : bool :=
  negb (s =? EmptyString) && all_chars identifier_char s.

Definition names {A : Type} (xs : option (list A)) : list A :=
  match xs with
  | Some l => l
  | None => []
  end.

(** The names a job reads from the incoming event. *)
Definition declared (props : ScriptJobProps) : list string :=
  (names (environmentStringVariablesFromIncomingEvent props) ++
   names (environmentJSONVariablesFromIncomingEvent props))%list.

(** A job whose names are field names and whose identifier key is not the
    key [jobOutput] the outgoing events use themselves. *)
Definition well_configured (props : ScriptJobProps) : bool :=
  identifier (jobIdentifierKey props) &&
  negb (jobIdentifierKey props =? "jobOutput") &&
  forallb identifier (declared props) &&
  forallb identifier (names (environmentVariablesToOutgoingEvent props)).

Definition present (name : string) (e : EventEnvelope) : bool :=
  Obj.has name (detail e).

(** An incoming event is well formed for a job when its detail holds the
    identifier key and every declared name. *)
Definition well_formed (props : ScriptJobProps) (e : EventEnvelope) : bool :=
  present (jobIdentifierKey props) e &&
  forallb (fun name => present name e) (declared props).

(** The member [name] of the [output] of a payload the backend returned. *)
Definition output_field (payload : json) (name : string) : option json :=
  select ["output"; name] payload.

Definition jobOutput_of (entry : EventEntry) : option json :=
  select ["jobOutput"] (Detail entry).

(** The publish step does not fail. *)
Definition publish_accepts (P : Platform) : Prop :=
  forall es, exists response, put_events P es = Accepted response.

(** The errors on which the invocation step is made again, and the number
    of invocations an error of the function leads to: one, and six more on
    a transient error of the Lambda service. *)
Definition retried (error : string) : bool :=
  error_matches lambdaServiceExceptions error.

Definition attempts_on (error : string) : nat :=
  S (if retried error then 6 else 0).
Arguments attempts_on : simpl never.

Definition invocations_made (result : InvokeResult) : nat :=
  match result with
  | Returned _ => 1
  | Raised error _ => attempts_on error
  end.

Definition successTask : string := "notifySuccessEventBridgeTask".
Definition failureTask : string := "notifyFailureEventBridgeTask".

(** The state after the invocation step wrote [x] at [$.startLambda]. *)
Definition after_invoke (e : EventEnvelope) (x : json) : json :=
  JObj [("detail-type", JStr (DetailType_name (kind e)));
        ("source", JStr (source e));
        ("detail", JObj (detail e));
        ("startLambda", x)].

Definition invoke_result (payload : json) : json :=
  JObj [("Payload", payload); ("StatusCode", JNum 200)].

Definition renders_to (to_string : json -> string) (input : json)
    (kt : string * Template) (kv : string * json) : Prop :=
  fst kt = fst kv /\ render to_string input (snd kt) = Found (snd kv).

(** ** The outcomes of handling an event

    The ways an execution of the state machine of a job can go, as a
    relation between the job, the event and the status and trace of the
    execution. *)

(** The members of [jobOutput] in the success event. *)
Definition jobOutputFields (props : ScriptJobProps) : list (string * Template) :=
  fold_left
    (fun acc exportedVar =>
       Obj.set exportedVar
         (StringAt ("$.startLambda.Payload.output." ++ exportedVar)) acc)
    (names (environmentVariablesToOutgoingEvent props)) [].

(** The outgoing events, given their detail. *)
Definition success_entry (props : ScriptJobProps) (d : json) : EventEntry :=
  {| DetailType_of := success (outgoingEvent props);
     Detail := d;
     Source := supportedEvents (eventManager props) (success (outgoingEvent props));
     EventBusName := busArn (eventManager props) |}.

Definition failure_entry (props : ScriptJobProps) (d : json) : EventEntry :=
  {| DetailType_of := failure (outgoingEvent props);
     Detail := d;
     Source := supportedEvents (eventManager props) (failure (outgoingEvent props));
     EventBusName := busArn (eventManager props) |}.

Definition success_event (props : ScriptJobProps) (id : json)
    (jobOutput : list (string * json)) : EventEntry :=
  success_entry props
    (JObj [(jobIdentifierKey props, id); ("jobOutput", JObj jobOutput)]).

Definition failure_event (props : ScriptJobProps) (id : json) : EventEntry :=
  failure_entry props
    (JObj [(jobIdentifierKey props, id);
           ("jobOutput", JObj (jobFailureStatus props))]).

(** The values exported from a payload: one per member of [jobOutput], read
    from the output of the payload. *)
Definition exported (props : ScriptJobProps) (payload : json)
    (jobOutput : list (string * json)) : Prop :=
  Forall2 (fun kt kv => fst kt = fst kv /\
                        output_field payload (fst kv) = Some (snd kv))
          (jobOutputFields props) jobOutput.

Inductive put_step (P : Platform) (task : string) (entry : EventEntry)
  : ExecutionStatus * list Effect -> Prop :=
| Put_accepted (response out : json) :
    put_events P [entry] = Accepted response ->
    put_step P task entry (SUCCEEDED out, [Published task entry])
| Put_rejected (err cause : string) :
    put_events P [entry] = Rejected err cause ->
    put_step P task entry (FAILED err cause, []).

Inductive failure_notified (P : Platform) (props : ScriptJobProps) (e : EventEnvelope)
  : ExecutionStatus * list Effect -> Prop :=
| FN_no_identifier :
    Obj.get (jobIdentifierKey props) (detail e) = None ->
    failure_notified P props e
      (FAILED "States.Runtime"
              (missing_path_cause ("$.detail." ++ jobIdentifierKey props)), [])
| FN_put (id : json) (r : ExecutionStatus * list Effect) :
    Obj.get (jobIdentifierKey props) (detail e) = Some id ->
    put_step P failureTask (failure_event props id) r ->
    failure_notified P props e r.

Inductive success_notified (P : Platform) (props : ScriptJobProps) (e : EventEnvelope)
    (payload : json) : ExecutionStatus * list Effect -> Prop :=
| SN_no_identifier :
    Obj.get (jobIdentifierKey props) (detail e) = None ->
    success_notified P props e payload
      (FAILED "States.Runtime"
              (missing_path_cause ("$.detail." ++ jobIdentifierKey props)), [])
| SN_missing_output (id : json) (name : string) :
    Obj.get (jobIdentifierKey props) (detail e) = Some id ->
    In name (names (environmentVariablesToOutgoingEvent props)) ->
    output_field payload name = None ->
    success_notified P props e payload
      (FAILED "States.Runtime"
              (missing_path_cause ("$.startLambda.Payload.output." ++ name)), [])
| SN_put (id : json) (jobOutput : list (string * json))
         (r : ExecutionStatus * list Effect) :
    Obj.get (jobIdentifierKey props) (detail e) = Some id ->
    exported props payload jobOutput ->
    put_step P successTask (success_event props id jobOutput) r ->
    success_notified P props e payload r.

Inductive handled (P : Platform) (props : ScriptJobProps) (e : EventEnvelope)
  : ExecutionStatus * list Effect -> Prop :=
| Handled_missing_variable (name : string) :
    In name (declared props) ->
    Obj.get name (detail e) = None ->
    handled P props e
      (FAILED "States.Runtime" (missing_path_cause ("$.detail." ++ name)), [])
| Handled_raised (request : list (string * json)) (err cause : string)
                 (status : ExecutionStatus) (later : list Effect) :
    (forall name, In name (declared props) -> Obj.has name (detail e) = true) ->
    Forall2 (renders_to (json_to_string P) (event_input e))
            (environmentVariablesOverride props) request ->
    lambda_invoke P (createLambdaFunction props) (JObj request) = Raised err cause ->
    failure_notified P props e (status, later) ->
    handled P props e
      (status,
       (repeat (Invoked (createLambdaFunction props) (JObj request))
               (attempts_on err) ++ later)%list)
| Handled_returned (request : list (string * json)) (payload : json)
                   (status : ExecutionStatus) (later : list Effect) :
    (forall name, In name (declared props) -> Obj.has name (detail e) = true) ->
    Forall2 (renders_to (json_to_string P) (event_input e))
            (environmentVariablesOverride props) request ->
    lambda_invoke P (createLambdaFunction props) (JObj request) = Returned payload ->
    success_notified P props e payload (status, later) ->
    handled P props e
      (status, Invoked (createLambdaFunction props) (JObj request) :: later).

(** ** A job, events and platforms to run it on

    The provisioning job of scenario A of the spec: it reads [tier] from the
    onboarding request and exports [dbEndpoint]. *)
Module Demo.

Definition quote : string := String (ascii_of_nat 34) EmptyString.

Definition show_Z (n : Z) : string := NilZero.string_of_int (Z.to_int n).

(** A compact rendering of JSON, standing for [States.JsonToString]. *)
Fixpoint compact (j : json) : string :=
  match j with
  | JNull => "null"
  | JBool true => "true"
  | JBool false => "false"
  | JNum n => show_Z n
  | JStr s => quote ++ s ++ quote
  | JArr items =>
      "[" ++ (fix go (l : list json) : string :=
                match l with
                | [] => EmptyString
                | x :: rest =>
                    compact x ++
                    match rest with [] => EmptyString | _ => "," ++ go rest end
                end) items ++ "]"
  | JObj fields =>
      "{" ++ (fix go (l : list (string * json)) : string :=
                match l with
                | [] => EmptyString
                | (k, x) :: rest =>
                    quote ++ k ++ quote ++ ":" ++ compact x ++
                    match rest with [] => EmptyString | _ => "," ++ go rest end
                end) fields ++ "}"
  end.

Definition manager : IEventManager :=
  {| busArn := "arn:aws:events:us-east-1:000000000000:event-bus/sbt";
     supportedEvents := fun k =>
       match k with
       | ONBOARDING_REQUEST | OFFBOARDING_REQUEST => "controlPlaneEventSource"
       | _ => "applicationPlaneEventSource"
       end |}.

Definition lifecycle : TenantLifecycleLambdaScriptJobProps :=
  {| tl_script := "./provision.sh";
     tl_postScript := None;
     tl_environmentStringVariablesFromIncomingEvent := Some ["tier"];
     tl_environmentJSONVariablesFromIncomingEvent := None;
     tl_environmentVariablesToOutgoingEvent := Some ["dbEndpoint"];
     tl_scriptEnvironmentVariables := Some [("REGION", "us-east-1")];
     tl_eventManager := manager |}.

(** The properties [ProvisioningLambdaScriptJob] hands to [LambdaScriptJob]. *)
Definition props : ScriptJobProps :=
  lifecycleProps lifecycle "Failed to provision tenant."
    ONBOARDING_REQUEST PROVISION_SUCCESS PROVISION_FAILURE.

(** The same job with nothing to export. *)
Definition props_no_output : ScriptJobProps :=
  lifecycleProps
    {| tl_script := "./provision.sh";
       tl_postScript := None;
       tl_environmentStringVariablesFromIncomingEvent := Some ["tier"];
       tl_environmentJSONVariablesFromIncomingEvent := None;
       tl_environmentVariablesToOutgoingEvent := None;
       tl_scriptEnvironmentVariables := Some [("REGION", "us-east-1")];
       tl_eventManager := manager |}
    "Failed to provision tenant."
    ONBOARDING_REQUEST PROVISION_SUCCESS PROVISION_FAILURE.

Definition onboarding (detail : list (string * json)) : EventEnvelope :=
  {| kind := ONBOARDING_REQUEST;
     source := "controlPlaneEventSource";
     detail := detail |}.

(** The incoming event of scenario A. *)
Definition event_A : EventEnvelope :=
  onboarding [("tenantId", JStr "t1"); ("tier", JStr "premium")].

(** An event without the identifier (scenario C). *)
Definition event_C : EventEnvelope := onboarding [("tier", JStr "premium")].

(** An event without the declared variable. *)
Definition event_no_tier : EventEnvelope := onboarding [("tenantId", JStr "t1")].

(** A bus that accepts every entry. *)
Definition bus_ok (es : list EventEntry) : PutResult :=
  Accepted (JObj [("FailedEntryCount", JNum 0)]).

(** A platform whose function answers as [backend] says. *)
Definition platform (backend : json -> InvokeResult) : Platform :=
  {| json_to_string := compact;
     lambda_invoke := fun _ request => backend request;
     put_events := bus_ok |}.

(** A platform that runs the inline code of the function on a host. *)
Definition node_platform (H : NodeHost) : Platform :=
  {| json_to_string := compact;
     lambda_invoke := invoke_function H compact;
     put_events := bus_ok |}.

(** A host on which every script prints [stdout] and exits with status 0
    after [seconds] seconds. *)
Definition host_printing (stdout : string) (seconds : Z) : NodeHost :=
  {| exec := fun _ _ =>
       {| exec_error := None;
          exec_stdout := stdout;
          exec_stderr := EmptyString;
          exec_seconds := seconds |};
     rejection_error := fun _ => "Error";
     other_program := fun _ _ =>
       Raised "Runtime.UserCodeSyntaxError" "SyntaxError: Unexpected identifier" |}.

(** A host on which the script tells whether [tier] is in its environment. *)
Definition host_probing_tier : NodeHost :=
  {| exec := fun env _ =>
       {| exec_error := None;
          exec_stdout := if Obj.has "tier" env then "tier is set" else "tier is not set";
          exec_stderr := EmptyString;
          exec_seconds := 1 |};
     rejection_error := fun _ => "Error";
     other_program := fun _ _ =>
       Raised "Runtime.UserCodeSyntaxError" "SyntaxError: Unexpected identifier" |}.

(** A backend that returns a structured output. *)
Definition backend_structured (request : json) : InvokeResult :=
  Returned (JObj [("output", JObj [("dbEndpoint", JStr "db.example.com")])]).

(** A backend that fails. *)
Definition backend_failing (request : json) : InvokeResult :=
  Raised "Error" "permission denied".


(** A backend whose output lacks the exported name. *)
Definition backend_partial (request : json) : InvokeResult :=
  Returned (JObj [("output", JObj [("other", JStr "x")])]).

(** A machine for the tenant provisioning handler: its state is the list of
    files written; bash reads the file it is given.  The default script
    prints its line; any other script prints a result and a warning and
    exits with status 0. *)
Definition bash (content : string) : ExecOutcome :=
  if content =? Tenantprov.defaultScript
  then {| exec_error := None;
          exec_stdout := Tenantprov.defaultOutput;
          exec_stderr := EmptyString;
          exec_seconds := 0 |}
  else {| exec_error := None;
          exec_stdout := "stack created";
          exec_stderr := "warning: deprecated option";
          exec_seconds := 3 |}.

Definition machine : Tenantprov.Host (list (string * string)) :=
  {| Tenantprov.writeFile := fun files path data =>
       match data with
       | JStr content => inl (Obj.set path content files)
       | _ => inr "The data argument must be of type string"
       end;
     Tenantprov.execCommand := fun files command =>
       match Obj.get Tenantprov.scriptPath files with
       | Some content =>
           if command =? "/bin/bash /tmp/prov-script.sh" then bash content
           else {| exec_error := Some "Command failed";
                   exec_stdout := EmptyString;
                   exec_stderr := "command not found";
                   exec_seconds := 0 |}
       | None =>
           {| exec_error := Some "Command failed";
              exec_stdout := EmptyString;
              exec_stderr := "No such file or directory";
              exec_seconds := 0 |}
       end |}.

End Demo.

(** ** More jobs, events and hosts *)
Module Cases.

(** A host on which every script fails: it exits with a status other than
    zero after printing on both streams. *)
Definition host_failing : NodeHost :=
  {| exec := fun _ script =>
       {| exec_error := Some ("Command failed: " ++ script);
          exec_stdout := "creating stack";
          exec_stderr := "permission denied";
          exec_seconds := 1 |};
     rejection_error := fun _ => "Error";
     other_program := fun _ _ =>
       Raised "Runtime.UserCodeSyntaxError" "SyntaxError: Unexpected identifier" |}.

(** A host on which every script exits with status zero after a warning on
    its standard error. *)
Definition host_warning : NodeHost :=
  {| exec := fun _ _ =>
       {| exec_error := None;
          exec_stdout := "stack created";
          exec_stderr := "warning: deprecated option";
          exec_seconds := 1 |};
     rejection_error := fun _ => "Error";
     other_program := fun _ _ =>
       Raised "Runtime.UserCodeSyntaxError" "SyntaxError: Unexpected identifier" |}.


(** A job whose identifier key is the key of the job output itself. *)
Definition props_colliding : ScriptJobProps :=
  {| jobIdentifierKey := "jobOutput";
     script := "./provision.sh";
     postScript := None;
     incomingEvent := ONBOARDING_REQUEST;
     outgoingEvent := {| success := PROVISION_SUCCESS;
                         failure := PROVISION_FAILURE |};
     environmentStringVariablesFromIncomingEvent := None;
     environmentJSONVariablesFromIncomingEvent := None;
     environmentVariablesToOutgoingEvent := None;
     scriptEnvironmentVariables := None;
     jobFailureStatus := [("tenantStatus", JStr "Failed to provision tenant.")];
     eventManager := Demo.manager |}.

(** A job that declares a name with a dot, and a name both as a string and
    as a JSON variable. *)
Definition props_dotted : ScriptJobProps :=
  {| jobIdentifierKey := "tenantId";
     script := "./provision.sh";
     postScript := None;
     incomingEvent := ONBOARDING_REQUEST;
     outgoingEvent := {| success := PROVISION_SUCCESS;
                         failure := PROVISION_FAILURE |};
     environmentStringVariablesFromIncomingEvent := Some ["plan.tier"; "limits"];
     environmentJSONVariablesFromIncomingEvent := Some ["limits"];
     environmentVariablesToOutgoingEvent := None;
     scriptEnvironmentVariables := None;
     jobFailureStatus := [("tenantStatus", JStr "Failed to provision tenant.")];
     eventManager := Demo.manager |}.

Definition event_nested : EventEnvelope :=
  Demo.onboarding
    [("tenantId", JStr "t1");
     ("plan", JObj [("tier", JStr "premium")]);
     ("limits", JObj [("users", JNum 5)])].

(** An event for the job whose identifier key is [jobOutput]. *)
Definition event_colliding : EventEnvelope :=
  Demo.onboarding [("jobOutput", JStr "t1")].



(** A backend that the Lambda service cannot reach. *)
Definition backend_unreachable (request : json) : InvokeResult :=
  Raised "Lambda.ServiceException" "Service unavailable".

(** The event of scenario A as it would arrive under another kind and from
    another source. *)
Definition event_A_offboarding : EventEnvelope :=
  {| kind := OFFBOARDING_REQUEST;
     source := "someoneElse";
     detail := detail Demo.event_A |}.

End Cases.

(** * Properties *)

(** ** Objects *)
Section ObjFacts.
Context {V : Type}.
Implicit Types (o : list (string * V)) (k : string) (v : V).

Lemma get_set_same o k v : Obj.get k (Obj.set k v o) = Some v.
Proof.
  induction o as [|[k' v'] rest IH]; simpl.
  - now rewrite String.eqb_refl.
  - destruct (String.eqb k k') eqn:E; simpl; rewrite E; [reflexivity | exact IH].
Qed.

Lemma get_set_other o k k' v : k' <> k -> Obj.get k' (Obj.set k v o) = Obj.get k' o.
Proof.
  intros Hne. induction o as [|[k0 v0] rest IH]; simpl.
  - apply String.eqb_neq in Hne. now rewrite Hne.
  - destruct (String.eqb k k0) eqn:E; simpl.
    + apply String.eqb_eq in E. subst k0.
      apply String.eqb_neq in Hne. now rewrite Hne.
    + now rewrite IH.
Qed.

Lemma keys_set o k v :
  forall k', In k' (Obj.keys (Obj.set k v o)) <-> k' = k \/ In k' (Obj.keys o).
Proof.
  intros k'. unfold Obj.keys.
  induction o as [|[k0 v0] rest IH]; simpl.
  - intuition congruence.
  - destruct (String.eqb k k0) eqn:E; simpl.
    + apply String.eqb_eq in E. subst k0. intuition congruence.
    + rewrite IH. intuition congruence.
Qed.

(** Entries of an object filled by a loop [names.forEach(n => o[n] = f(n))]. *)
Lemma entries_fold (f : string -> V) (l : list string) o k v :
  In (k, v) (fold_left (fun acc n => Obj.set n (f n) acc) l o) ->
  In (k, v) o \/ (In k l /\ v = f k).
Proof.
  revert o. induction l as [|n l IH]; simpl; intros o Hin.
  - now left.
  - apply IH in Hin. destruct Hin as [Hin | [Hin ->]].
    + assert (Hset : forall o', In (k, v) (Obj.set n (f n) o') ->
                                In (k, v) o' \/ (k = n /\ v = f n)).
      { clear. induction o' as [|[k0 v0] rest IHo]; simpl.
        - intros [H | []]. inversion H; subst. now right.
        - destruct (String.eqb n k0) eqn:E; simpl.
          + apply String.eqb_eq in E. subst k0.
            intros [H | H]; [inversion H; subst; now right | left; now right].
          + intros [H | H]; [left; now left |].
            destruct (IHo H) as [H' | H']; [left; now right | now right]. }
      destruct (Hset _ Hin) as [H | [-> ->]]; [now left | right; split; auto].
    + right. split; auto.
Qed.

Lemma keys_fold (f : string -> V) (l : list string) o k :
  In k (Obj.keys (fold_left (fun acc n => Obj.set n (f n) acc) l o)) <->
  In k (Obj.keys o) \/ In k l.
Proof.
  revert o. induction l as [|n l IH]; simpl; intros o.
  - intuition.
  - rewrite IH, keys_set. intuition.
Qed.

Lemma get_fold_in (f : string -> V) (l : list string) o k :
  In k l -> Obj.get k (fold_left (fun acc n => Obj.set n (f n) acc) l o) = Some (f k).
Proof.
  revert o. induction l as [|n l IH]; simpl; intros o Hin; [contradiction|].
  destruct (in_dec string_dec k l) as [Hl | Hl]; [now apply IH|].
  destruct Hin as [-> | Hin]; [|contradiction].
  clear IH. revert o. induction l as [|m l IHl]; simpl; intros o.
  - apply get_set_same.
  - assert (Hm : k <> m) by (intros ->; apply Hl; now left).
    assert (Hl' : ~ In k l) by (intros H; apply Hl; now right).
    specialize (IHl Hl').
    (* the later assignments leave the entry of [k] alone *)
    assert (Hkeep : forall o', Obj.get k o' = Some (f k) ->
              Obj.get k (fold_left (fun acc n => Obj.set n (f n) acc) l o') = Some (f k)).
    { clear - Hl'. induction l as [|x l IHx]; simpl; intros o' H; [exact H|].
      apply IHx.
      - intros Hx. apply Hl'. now right.
      - rewrite get_set_other; [exact H|]. intros ->. apply Hl'. now left. }
    apply Hkeep. rewrite get_set_other by exact Hm. apply get_set_same.
Qed.

Lemma get_fold_notin (f : string -> V) (l : list string) o k :
  ~ In k l -> Obj.get k (fold_left (fun acc n => Obj.set n (f n) acc) l o) = Obj.get k o.
Proof.
  revert o. induction l as [|n l IH]; simpl; intros o Hnot; [reflexivity|].
  rewrite IH by (intros H; apply Hnot; now right).
  apply get_set_other. intros ->. apply Hnot. now left.
Qed.

Lemma has_get o k : Obj.has k o = true <-> exists v, Obj.get k o = Some v.
Proof.
  unfold Obj.has. destruct (Obj.get k o) as [v|].
  - split; eauto.
  - split; [discriminate | intros [v Hv]; discriminate].
Qed.

Lemma get_In o k v : Obj.get k o = Some v -> In (k, v) o.
Proof.
  induction o as [|[k0 v0] rest IH]; simpl; [discriminate|].
  destruct (String.eqb k k0) eqn:E.
  - apply String.eqb_eq in E. subst. intros [= ->]. now left.
  - intros H. right. now apply IH.
Qed.
End ObjFacts.

(** ** Paths *)

Lemma identifier_char_not_dot (c : ascii) :
  identifier_char c = true -> Ascii.eqb c "."%char = false.
Proof.
  destruct (Ascii.eqb c "."%char) eqn:E; [|reflexivity].
  apply Ascii.eqb_eq in E. subst c. discriminate.
Qed.

Lemma segments_plain (s : string) :
  all_chars identifier_char s = true -> segments s = [s].
Proof.
  induction s as [|c rest IH]; simpl; [reflexivity|].
  intros H. apply andb_true_iff in H as [Hc Hrest].
  rewrite (identifier_char_not_dot _ Hc), (IH Hrest). reflexivity.
Qed.

Lemma identifier_segments (s : string) : identifier s = true -> segments s = [s].
Proof.
  unfold identifier. intros H. apply andb_true_iff in H as [_ H].
  now apply segments_plain.
Qed.

Lemma parse_detail_path (name : string) :
  identifier name = true -> parse_path ("$.detail." ++ name) = Some ["detail"; name].
Proof.
  intros H. unfold parse_path. simpl. now rewrite (identifier_segments _ H).
Qed.

Lemma parse_output_path (name : string) :
  identifier name = true ->
  parse_path ("$.startLambda.Payload.output." ++ name)
  = Some ["startLambda"; "Payload"; "output"; name].
Proof.
  intros H. unfold parse_path. simpl. now rewrite (identifier_segments _ H).
Qed.

Lemma read_detail_event (e : EventEnvelope) (name : string) :
  identifier name = true ->
  read_path ("$.detail." ++ name) (event_input e) = Obj.get name (detail e).
Proof.
  intros H. unfold read_path. rewrite (parse_detail_path _ H). simpl.
  now destruct (Obj.get name (detail e)).
Qed.

Lemma read_detail_after (e : EventEnvelope) (x : json) (name : string) :
  identifier name = true ->
  read_path ("$.detail." ++ name) (after_invoke e x) = Obj.get name (detail e).
Proof.
  intros H. unfold read_path. rewrite (parse_detail_path _ H). simpl.
  now destruct (Obj.get name (detail e)).
Qed.

Lemma read_output_after (e : EventEnvelope) (payload : json) (name : string) :
  identifier name = true ->
  read_path ("$.startLambda.Payload.output." ++ name)
            (after_invoke e (invoke_result payload))
  = output_field payload name.
Proof.
  intros H. unfold read_path. rewrite (parse_output_path _ H). reflexivity.
Qed.

(** ** Rendering the members of an object *)
Section RenderFacts.
Variable to_string : json -> string.
Variable input : json.

Lemma render_ObjectT (fields : list (string * Template)) :
  render to_string input (ObjectT fields) =
  (o <-? render_members to_string input fields ;; Found (JObj o)).
Proof.
  simpl. f_equal.
  induction fields as [|[k t] rest IH]; simpl; [reflexivity|].
  destruct (render to_string input t); simpl; [|reflexivity].
  rewrite IH. reflexivity.
Qed.

Lemma render_members_found (fs : list (string * Template)) (ms : list (string * json)) :
  render_members to_string input fs = Found ms <->
  Forall2 (renders_to to_string input) fs ms.
Proof.
  revert ms. induction fs as [|[k t] rest IH]; intros ms; simpl.
  - split.
    + intros [= <-]. constructor.
    + intros H. inversion H. reflexivity.
  - destruct (render to_string input t) as [v|p] eqn:Ht; simpl.
    + destruct (render_members to_string input rest) as [vs|p] eqn:Hr; simpl.
      * split.
        -- intros [= <-]. constructor; [split; [reflexivity | exact Ht]|].
           now apply IH.
        -- intros H. inversion H as [|? [k' v'] ? ? [Hk Hv] Hrest]; subst.
           simpl in Hk, Hv. subst k'. rewrite Ht in Hv. injection Hv as <-.
           apply IH in Hrest. now injection Hrest as <-.
      * split; [discriminate|].
        intros H. inversion H as [|? ? ? ? _ Hrest]; subst.
        apply IH in Hrest. discriminate.
    + split; [discriminate|].
      intros H. inversion H as [|? [k' v'] ? ? [_ Hv] _]; subst.
      simpl in Hv. rewrite Ht in Hv. discriminate.
Qed.

Lemma render_members_missing (fs : list (string * Template)) (p : string) :
  render_members to_string input fs = Missing p ->
  exists k t, In (k, t) fs /\ render to_string input t = Missing p.
Proof.
  induction fs as [|[k t] rest IH]; simpl; [discriminate|].
  destruct (render to_string input t) as [v|q] eqn:Ht; simpl.
  - destruct (render_members to_string input rest) as [vs|q] eqn:Hr; simpl;
      [discriminate|].
    intros [= ->]. destruct (IH eq_refl) as (k' & t' & Hin & Hre).
    exists k', t'. split; [now right | exact Hre].
  - intros [= ->]. exists k, t. split; [now left | exact Ht].
Qed.

(** The member of the rendered object under a key is the rendering of the
    member of the template under that key. *)
Lemma rendered_get (fs : list (string * Template)) (ms : list (string * json))
    (k : string) (t : Template) :
  Forall2 (renders_to to_string input) fs ms ->
  Obj.get k fs = Some t ->
  exists v, Obj.get k ms = Some v /\ render to_string input t = Found v.
Proof.
  intros H. induction H as [|[k1 t1] [k2 v2] fs ms [Hk Hv] _ IH]; simpl;
    [discriminate|].
  simpl in Hk, Hv. subst k2.
  destruct (String.eqb k k1); [|exact IH].
  intros [= <-]. eauto.
Qed.

Lemma render_members_total (fs : list (string * Template)) :
  (forall k t, In (k, t) fs -> exists v, render to_string input t = Found v) ->
  exists ms, render_members to_string input fs = Found ms.
Proof.
  intros Hall.
  destruct (render_members to_string input fs) as [ms|p] eqn:E; [eauto|].
  destruct (render_members_missing _ E) as (k & t & Hin & Hre).
  destruct (Hall _ _ Hin) as [v Hv]. congruence.
Qed.
End RenderFacts.

(** ** Traces *)

Lemma in_repeat_app {A : Type} (x y : A) (n : nat) (l : list A) :
  In x (repeat y n ++ l) -> y = x \/ In x l.
Proof.
  intros H. apply in_app_or in H as [H | H]; [left | now right].
  symmetry. now apply repeat_spec in H.
Qed.

Lemma in_cons_repeat_app {A : Type} (x y : A) (n : nat) (l : list A) :
  In x (y :: repeat y n ++ l) -> y = x \/ In x l.
Proof. exact (@in_repeat_app A x y (S n) l). Qed.

Lemma published_after_invocations (fn : LambdaFunction) (request : json) (n : nat)
    (later : list Effect) :
  published (repeat (Invoked fn request) n ++ later) = published later.
Proof. induction n as [|n IH]; [reflexivity | exact IH]. Qed.

Lemma invocations_repeated (fn : LambdaFunction) (request : json) (n : nat)
    (later : list Effect) :
  invocations (repeat (Invoked fn request) n ++ later)
  = (repeat (fn, request) n ++ invocations later)%list.
Proof.
  induction n as [|n IH]; [reflexivity|].
  cbn [repeat app invocations flat_map]. f_equal. exact IH.
Qed.

Lemma published_after_invoked (fn : LambdaFunction) (request : json) (n : nat)
    (later : list Effect) :
  published (Invoked fn request :: repeat (Invoked fn request) n ++ later)
  = published later.
Proof. exact (published_after_invocations fn request (S n) later). Qed.

Lemma invocations_invoked (fn : LambdaFunction) (request : json) (n : nat)
    (later : list Effect) :
  invocations (Invoked fn request :: repeat (Invoked fn request) n ++ later)
  = ((fn, request) :: repeat (fn, request) n ++ invocations later)%list.
Proof. exact (invocations_repeated fn request (S n) later). Qed.

(** ** The execution of a job, step by step *)
Section Steps.
Variable P : Platform.
Variable props : ScriptJobProps.
Variable e : EventEnvelope.

(** A task without retriers is made once. *)
Lemma attempt_no_retrier (id : string) (r : Resource) (input : json) (budget : nat) :
  attempt P id r input budget [] = perform P id r input.
Proof.
  destruct budget; cbn [attempt retry_with];
    destruct (perform P id r input) as [[result | error cause | path] done];
    reflexivity.
Qed.

(** Every retry takes one attempt from a retrier, so the budget the
    attempts start with is never what stops them. *)
Lemma retry_with_left (error : string) (left left' : list (Retrier * nat)) :
  retry_with error left = Some left' ->
  attempts_left left = S (attempts_left left').
Proof.
  revert left'. induction left as [|[r n] rest IH]; intros left'; cbn [retry_with];
    [discriminate|].
  destruct (error_matches (retry_errors r) error).
  - destruct n as [|n]; [discriminate|]. intros [= <-]. reflexivity.
  - destruct (retry_with error rest) as [rest'|]; [|discriminate].
    intros [= <-]. cbn [attempts_left fold_right snd].
    fold (attempts_left rest) (attempts_left rest').
    rewrite (IH rest' eq_refl). now rewrite Nat.add_succ_r.
Qed.

Lemma attempt_budget (id : string) (r : Resource) (input : json)
    (budget : nat) (left : list (Retrier * nat)) :
  attempts_left left <= budget ->
  attempt P id r input budget left
  = attempt P id r input (attempts_left left) left.
Proof.
  revert left. induction budget as [|budget IH]; intros left Hle.
  - now replace (attempts_left left) with 0 by (now apply Nat.le_0_r in Hle).
  - cbn [attempt].
    destruct (perform P id r input) as [[result | error cause | path] done] eqn:Hperform.
    + destruct (attempts_left left); cbn [attempt]; now rewrite Hperform.
    + destruct (retry_with error left) as [left'|] eqn:Hretry.
      * pose proof (retry_with_left _ _ Hretry) as Hleft. rewrite Hleft in *.
        cbn [attempt]. rewrite Hperform, Hretry.
        now rewrite (IH left' (le_S_n _ _ Hle)).
      * destruct (attempts_left left); cbn [attempt]; now rewrite Hperform, ?Hretry.
    + destruct (attempts_left left); cbn [attempt]; now rewrite Hperform.
Qed.

(** An invocation with one retrier that starts with [n] attempts: it is made
    once when it returns or raises an error the retrier does not cover, and
    [n] times more when it raises one the retrier covers. *)
Lemma attempt_invoke (id : string) (fn : LambdaFunction) (payload : Template)
    (input : json) (rt : Retrier) (n : nat) :
  attempt P id (LambdaInvoke fn payload) input n [(rt, n)] =
  match render (json_to_string P) input payload with
  | Missing p => (TaskAborted p, [])
  | Found request =>
      match lambda_invoke P fn request with
      | Returned v => (TaskSucceeded (invoke_result v), [Invoked fn request])
      | Raised err cause =>
          (TaskFailed err cause,
           repeat (Invoked fn request)
                  (S (if error_matches (retry_errors rt) err then n else 0)))
      end
  end.
Proof.
  induction n as [|n IH]; cbn [attempt perform].
  - destruct (render _ _ _) as [request | p]; [|reflexivity].
    destruct (lambda_invoke P fn request) as [v | err cause]; [reflexivity|].
    now destruct (error_matches (retry_errors rt) err).
  - destruct (render _ _ _) as [request | p] eqn:Hrequest; [|reflexivity].
    destruct (lambda_invoke P fn request) as [v | err cause] eqn:Hinv;
      [reflexivity|].
    cbn [retry_with].
    destruct (error_matches (retry_errors rt) err) eqn:Hcovered; [|reflexivity].
    rewrite IH. reflexivity.
Qed.

Lemma handle_unfold :
  handle P props e =
  match render (json_to_string P) (event_input e)
               (ObjectT (environmentVariablesOverride props)) with
  | Missing p => (FAILED "States.Runtime" (missing_path_cause p), [])
  | Found request =>
      match lambda_invoke P (createLambdaFunction props) request with
      | Returned v =>
          let '(status, later) :=
            run P (notifySuccessEventBridgeTask props (busArn (eventManager props)))
                (after_invoke e (invoke_result v)) in
          (status, Invoked (createLambdaFunction props) request :: later)
      | Raised err cause =>
          let '(status, later) :=
            run P (notifyFailureEventBridgeTask props (busArn (eventManager props)))
                (after_invoke e (JObj [("Catch", error_output err cause)])) in
          (status,
           (repeat (Invoked (createLambdaFunction props) request) (attempts_on err)
            ++ later)%list)
      end
  end.
Proof.
  unfold handle, newLambdaScriptJob, createProvisioningStateMachine.
  cbn [definition provisioningStateMachine lambdaFunction_of].
  unfold startLambdaTask, new_LambdaInvoke, addRetry, addCatch, next.
  cbn [app].
  cbn [run fresh_retriers map attempts_left fold_right retry_maxAttempts snd Nat.add].
  rewrite attempt_invoke.
  destruct (render _ _ _) as [request | p]; [|reflexivity].
  destruct (lambda_invoke P (createLambdaFunction props) request)
    as [v | err cause]; reflexivity.
Qed.

(** A task that puts one entry on the bus and ends the execution. *)
Lemma run_put_task (id : string) (t : PutEventsEntry) (rp : string) (x : json) :
  run P (Task id (EventBridgePutEvents [t]) rp [] [] None) x =
  match render (json_to_string P) x (entry_detail t) with
  | Missing p => (FAILED "States.Runtime" (missing_path_cause p), [])
  | Found d =>
      match put_events P [entry_of t d] with
      | Accepted response =>
          (match write_path rp response x with
           | Some out => SUCCEEDED out
           | None => FAILED "States.ResultPathMatchFailure" rp
           end,
           [Published id (entry_of t d)])
      | Rejected err cause => (FAILED err cause, [])
      end
  end.
Proof.
  cbn [run fresh_retriers map attempts_left fold_right].
  rewrite attempt_no_retrier. cbn [perform render_entries].
  destruct (render (json_to_string P) x (entry_detail t)) as [d | p];
    cbn [bindR]; [|reflexivity].
  destruct (put_events P [entry_of t d]) as [response | err cause];
    cbn [map]; [|reflexivity].
  destruct (write_path rp response x); reflexivity.
Qed.

Lemma put_task_published (id : string) (t : PutEventsEntry) (rp : string) (x : json)
    (task : string) (entry : EventEntry) :
  In (task, entry)
     (published (snd (run P (Task id (EventBridgePutEvents [t]) rp [] [] None) x))) ->
  task = id /\
  exists d, render (json_to_string P) x (entry_detail t) = Found d /\
            entry = entry_of t d.
Proof.
  rewrite run_put_task.
  destruct (render (json_to_string P) x (entry_detail t)) as [d | p];
    [|intros []].
  destruct (put_events P [entry_of t d]) as [response | err cause]; [|intros []].
  cbn. intros [Heq | []]. injection Heq as <- <-. eauto.
Qed.

Lemma put_task_invokes_nothing (id : string) (t : PutEventsEntry) (rp : string)
    (x : json) (f : LambdaFunction) (request : json) :
  ~ In (Invoked f request)
       (snd (run P (Task id (EventBridgePutEvents [t]) rp [] [] None) x)).
Proof.
  rewrite run_put_task.
  destruct (render (json_to_string P) x (entry_detail t)) as [d | p];
    [|intros []].
  destruct (put_events P [entry_of t d]) as [response | err cause]; [|intros []].
  cbn. intros [Heq | []]. discriminate.
Qed.

(** Every invocation of an execution is of the function of the job, called
    with the resolved variables of the event. *)
Lemma invoked_origin (f : LambdaFunction) (request : json) :
  In (Invoked f request) (snd (handle P props e)) ->
  f = createLambdaFunction props /\
  render (json_to_string P) (event_input e)
         (ObjectT (environmentVariablesOverride props)) = Found request.
Proof.
  rewrite handle_unfold.
  destruct (render _ _ _) as [request' | p]; [|intros []].
  destruct (lambda_invoke P (createLambdaFunction props) request')
    as [payload | err cause];
    match goal with
    | |- context [run P ?s ?x] =>
        pose proof (@put_task_invokes_nothing
                      _ _ _ x f request : ~ In _ (snd (run P s x))) as Hnone;
        destruct (run P s x) as [status later]
    end;
    cbn [snd]; intros Hin;
    [ destruct Hin as [Heq | Hin] | apply in_repeat_app in Hin as [Heq | Hin] ];
    try (injection Heq as <- <-; now split);
    exfalso; now apply Hnone.
Qed.

(** Where a published event comes from: the success task after an
    invocation that returned, or the failure task after one that raised. *)
Lemma published_origin (task : string) (entry : EventEntry) :
  In (task, entry) (published (snd (handle P props e))) ->
  exists request,
    In (Invoked (createLambdaFunction props) request) (snd (handle P props e)) /\
    ((exists payload d,
         lambda_invoke P (createLambdaFunction props) request = Returned payload /\
         task = successTask /\
         render (json_to_string P) (after_invoke e (invoke_result payload))
                (ObjectT (exportedVarObj props)) = Found d /\
         entry = success_entry props d) \/
     (exists err cause d,
         lambda_invoke P (createLambdaFunction props) request = Raised err cause /\
         task = failureTask /\
         render (json_to_string P)
                (after_invoke e (JObj [("Catch", error_output err cause)]))
                (ObjectT (failureDetail props)) = Found d /\
         entry = failure_entry props d)).
Proof.
  rewrite handle_unfold.
  destruct (render _ _ _) as [request | p]; [|intros []].
  destruct (lambda_invoke P (createLambdaFunction props) request)
    as [payload | err cause] eqn:Hinv;
    unfold notifySuccessEventBridgeTask, notifyFailureEventBridgeTask,
      new_EventBridgePutEvents;
    match goal with
    | |- context [run P (Task ?id (EventBridgePutEvents [?t]) ?rp [] [] None) ?x] =>
        pose proof (@put_task_published id t rp x task entry) as Horigin;
        destruct (run P (Task id (EventBridgePutEvents [t]) rp [] [] None) x)
          as [status later]
    end;
    cbn [snd] in *; rewrite ?published_after_invocations;
    cbn [published flat_map app] in *; intros Hpub;
    destruct (Horigin Hpub) as (-> & d & Hd & ->);
    exists request; (split; [now left|]).
  - left. exists payload, d. repeat split; assumption.
  - right. exists err, cause, d. repeat split; assumption.
Qed.
End Steps.

(** ** Every execution is one of the outcomes *)

Lemma forEach_fold {A S : Type} (xs : option (list A)) (f : S -> A -> S) (init : S) :
  forEach xs f init = fold_left f (names xs) init.
Proof. destruct xs; reflexivity. Qed.

Lemma Forall2_impl_in {A B : Type} (R R' : A -> B -> Prop) (l1 : list A) (l2 : list B) :
  (forall a b, In a l1 -> R a b -> R' a b) ->
  Forall2 R l1 l2 -> Forall2 R' l1 l2.
Proof.
  intros Himp H. induction H as [|a b l1 l2 Hab _ IH]; constructor.
  - apply Himp; [now left | exact Hab].
  - apply IH. intros a' b' Hin. apply Himp. now right.
Qed.

Lemma well_configured_parts (props : ScriptJobProps) :
  well_configured props = true ->
  identifier (jobIdentifierKey props) = true /\
  jobIdentifierKey props <> "jobOutput" /\
  (forall n, In n (declared props) -> identifier n = true) /\
  (forall n, In n (names (environmentVariablesToOutgoingEvent props)) ->
             identifier n = true).
Proof.
  unfold well_configured. intros H.
  apply andb_true_iff in H as [H Houts].
  apply andb_true_iff in H as [H Hdecl].
  apply andb_true_iff in H as [Hid Hne].
  split; [exact Hid|]. split; [|split].
  - intros Heq. rewrite Heq in Hne. discriminate.
  - now apply forallb_forall.
  - now apply forallb_forall.
Qed.

(** ** The details of the two outgoing events *)
Section Details.
Variable props : ScriptJobProps.
Hypothesis distinct : jobIdentifierKey props <> "jobOutput".

Lemma jobOutput_is_another_key : ("jobOutput" =? jobIdentifierKey props) = false.
Proof. apply String.eqb_neq. intros H. apply distinct. now symmetry. Qed.

Lemma exportedVarObj_shape :
  exportedVarObj props =
  [(jobIdentifierKey props, StringAt ("$.detail." ++ jobIdentifierKey props));
   ("jobOutput", ObjectT (jobOutputFields props))].
Proof.
  pose proof jobOutput_is_another_key as Hk.
  unfold exportedVarObj, jobOutputFields. rewrite forEach_fold.
  set (A := StringAt ("$.detail." ++ jobIdentifierKey props)).
  assert (Hstep : forall (acc : list (string * Template)) n t,
             set_jobOutput n t [(jobIdentifierKey props, A); ("jobOutput", ObjectT acc)]
             = [(jobIdentifierKey props, A);
                ("jobOutput", ObjectT (Obj.set n t acc))]).
  { intros acc n t. unfold set_jobOutput. cbn [Obj.get Obj.set].
    rewrite Hk, String.eqb_refl. reflexivity. }
  replace (Obj.set "jobOutput" (ObjectT []) (Obj.set (jobIdentifierKey props) A []))
    with [(jobIdentifierKey props, A); ("jobOutput", ObjectT [])]
    by (cbn [Obj.set]; now rewrite Hk).
  enough (Hgen : forall (l : list string) (acc : list (string * Template)),
             fold_left
               (fun acc0 exportedVar =>
                  set_jobOutput exportedVar
                    (StringAt ("$.startLambda.Payload.output." ++ exportedVar)) acc0)
               l [(jobIdentifierKey props, A); ("jobOutput", ObjectT acc)]
             = [(jobIdentifierKey props, A);
                ("jobOutput",
                 ObjectT
                   (fold_left
                      (fun acc0 exportedVar =>
                         Obj.set exportedVar
                           (StringAt ("$.startLambda.Payload.output." ++ exportedVar))
                           acc0)
                      l acc))])
    by apply Hgen.
  induction l as [|n l IH]; intros acc; cbn [fold_left]; [reflexivity|].
  rewrite Hstep. apply IH.
Qed.

Lemma failureDetail_shape :
  failureDetail props =
  [(jobIdentifierKey props, StringAt ("$.detail." ++ jobIdentifierKey props));
   ("jobOutput", Literal (JObj (jobFailureStatus props)))].
Proof.
  unfold failureDetail. cbn [Obj.set]. now rewrite jobOutput_is_another_key.
Qed.

Variable to_string : json -> string.
Variable e : EventEnvelope.
Variable x : json.
Hypothesis plain : identifier (jobIdentifierKey props) = true.

Lemma render_identifier :
  render to_string (after_invoke e x)
         (StringAt ("$.detail." ++ jobIdentifierKey props))
  = match Obj.get (jobIdentifierKey props) (detail e) with
    | Some id => Found id
    | None => Missing ("$.detail." ++ jobIdentifierKey props)
    end.
Proof. cbn [render]. now rewrite (read_detail_after e x _ plain). Qed.

Lemma success_detail_shape (d : json) :
  render to_string (after_invoke e x) (ObjectT (exportedVarObj props)) = Found d ->
  exists id jobOutput,
    Obj.get (jobIdentifierKey props) (detail e) = Some id /\
    d = JObj [(jobIdentifierKey props, id); ("jobOutput", JObj jobOutput)] /\
    render_members to_string (after_invoke e x) (jobOutputFields props)
    = Found jobOutput.
Proof.
  rewrite render_ObjectT, exportedVarObj_shape.
  cbn [render_members bindR]. rewrite render_identifier.
  destruct (Obj.get (jobIdentifierKey props) (detail e)) as [id|]; [|discriminate].
  cbn [bindR]. rewrite render_ObjectT.
  destruct (render_members to_string (after_invoke e x) (jobOutputFields props))
    as [jobOutput | p]; [|discriminate].
  cbn [bindR]. intros [= <-]. now exists id, jobOutput.
Qed.

Lemma failure_detail_shape (d : json) :
  render to_string (after_invoke e x) (ObjectT (failureDetail props)) = Found d ->
  exists id,
    Obj.get (jobIdentifierKey props) (detail e) = Some id /\
    d = JObj [(jobIdentifierKey props, id);
              ("jobOutput", JObj (jobFailureStatus props))].
Proof.
  rewrite render_ObjectT, failureDetail_shape.
  cbn [render_members bindR]. rewrite render_identifier.
  destruct (Obj.get (jobIdentifierKey props) (detail e)) as [id|]; [|discriminate].
  cbn [bindR render]. intros [= <-]. now exists id.
Qed.
End Details.


Section Outcomes.
Variable P : Platform.
Variable props : ScriptJobProps.
Variable e : EventEnvelope.
Hypothesis configured : well_configured props = true.

Lemma override_entries (k : string) (t : Template) :
  In (k, t) (environmentVariablesOverride props) ->
  In k (declared props) /\
  (t = StringAt ("$.detail." ++ k) \/ t = JsonToString (ObjectAt ("$.detail." ++ k))).
Proof.
  unfold environmentVariablesOverride, declared. rewrite !forEach_fold.
  intros H. apply entries_fold in H as [H | [H ->]].
  - apply entries_fold in H as [[] | [H ->]].
    split; [apply in_or_app; now left | now left].
  - split; [apply in_or_app; now right | now right].
Qed.

Lemma override_keys (k : string) :
  In k (declared props) -> exists t, In (k, t) (environmentVariablesOverride props).
Proof.
  unfold environmentVariablesOverride, declared. rewrite !forEach_fold.
  intros H.
  assert (Hk : In k (Obj.keys
            (fold_left
               (fun acc n => Obj.set n (JsonToString (ObjectAt ("$.detail." ++ n))) acc)
               (names (environmentJSONVariablesFromIncomingEvent props))
               (fold_left
                  (fun acc n => Obj.set n (StringAt ("$.detail." ++ n)) acc)
                  (names (environmentStringVariablesFromIncomingEvent props)) [])))).
  { apply keys_fold. apply in_app_or in H as [H | H]; [left | now right].
    apply keys_fold. now right. }
  unfold Obj.keys in Hk. apply in_map_iff in Hk as ([k' t] & Heq & Hin).
  simpl in Heq. subst k'. now exists t.
Qed.

Lemma render_override_entry (k : string) (t : Template) :
  In (k, t) (environmentVariablesOverride props) ->
  match Obj.get k (detail e) with
  | Some _ => exists v, render (json_to_string P) (event_input e) t = Found v
  | None => render (json_to_string P) (event_input e) t = Missing ("$.detail." ++ k)
  end.
Proof.
  intros Hin. destruct (override_entries _ _ Hin) as [Hd Ht].
  destruct (well_configured_parts _ configured) as (_ & _ & Hids & _).
  pose proof (read_detail_event e _ (Hids _ Hd)) as Hread.
  destruct Ht as [-> | ->]; cbn [render bindR]; rewrite Hread;
    destruct (Obj.get k (detail e)); cbn [bindR]; eauto.
Qed.

Lemma jobOutput_entries (k : string) (t : Template) :
  In (k, t) (jobOutputFields props) ->
  In k (names (environmentVariablesToOutgoingEvent props)) /\
  t = StringAt ("$.startLambda.Payload.output." ++ k).
Proof.
  unfold jobOutputFields. intros H.
  apply entries_fold in H as [[] | H]. exact H.
Qed.

Lemma run_failure_notified (x : json) :
  failure_notified P props e
    (run P (notifyFailureEventBridgeTask props (busArn (eventManager props)))
         (after_invoke e x)).
Proof.
  destruct (well_configured_parts _ configured) as (Hid & Hne & _ & _).
  unfold notifyFailureEventBridgeTask, new_EventBridgePutEvents.
  cbn [run fresh_retriers map attempts_left fold_right].
  rewrite attempt_no_retrier. cbn [perform render_entries entry_detail].
  rewrite render_ObjectT, (@failureDetail_shape props Hne).
  cbn [render_members bindR]. rewrite (@render_identifier props _ e _ Hid).
  destruct (Obj.get (jobIdentifierKey props) (detail e)) as [id|] eqn:Hget.
  - cbn [bindR render].
    change (entry_of _ _) with (failure_event props id).
    eapply FN_put; [exact Hget|].
    destruct (put_events P [failure_event props id]) as [response | err cause] eqn:Hput.
    + cbn. eapply Put_accepted. exact Hput.
    + cbn. eapply Put_rejected. exact Hput.
  - cbn. now apply FN_no_identifier.
Qed.

Lemma run_success_notified (payload : json) :
  success_notified P props e payload
    (run P (notifySuccessEventBridgeTask props (busArn (eventManager props)))
         (after_invoke e (invoke_result payload))).
Proof.
  destruct (well_configured_parts _ configured) as (Hid & Hne & _ & Houts).
  unfold notifySuccessEventBridgeTask, new_EventBridgePutEvents.
  cbn [run fresh_retriers map attempts_left fold_right].
  rewrite attempt_no_retrier. cbn [perform render_entries entry_detail].
  rewrite render_ObjectT, (@exportedVarObj_shape props Hne).
  cbn [render_members bindR]. rewrite (@render_identifier props _ e _ Hid).
  destruct (Obj.get (jobIdentifierKey props) (detail e)) as [id|] eqn:Hget.
  2:{ cbn. now apply SN_no_identifier. }
  cbn [bindR]. rewrite render_ObjectT.
  destruct (render_members (json_to_string P) (after_invoke e (invoke_result payload))
                           (jobOutputFields props)) as [ms | p] eqn:Hms.
  - cbn [bindR].
    change (entry_of _ _) with (success_event props id ms).
    apply render_members_found in Hms.
    eapply SN_put; [exact Hget | |].
    + unfold exported. eapply Forall2_impl_in; [|exact Hms].
      intros [k t] [k' v] Hin [Hk Hv]. cbn [fst snd] in *. subst k'.
      split; [reflexivity|].
      destruct (jobOutput_entries _ _ Hin) as [Hn ->].
      cbn [render] in Hv. rewrite (read_output_after e payload _ (Houts _ Hn)) in Hv.
      destruct (output_field payload k); [now injection Hv as -> | discriminate].
    + destruct (put_events P [success_event props id ms])
        as [response | err cause] eqn:Hput.
      * cbn. eapply Put_accepted. exact Hput.
      * cbn. eapply Put_rejected. exact Hput.
  - cbn.
    destruct (render_members_missing _ _ _ Hms) as (k & t & Hin & Hre).
    destruct (jobOutput_entries _ _ Hin) as [Hn ->].
    cbn [render] in Hre. rewrite (read_output_after e payload _ (Houts _ Hn)) in Hre.
    destruct (output_field payload k) eqn:Hout; [discriminate|].
    injection Hre as <-. eapply SN_missing_output; eauto.
Qed.

Lemma handle_handled : handled P props e (handle P props e).
Proof.
  rewrite handle_unfold, render_ObjectT.
  destruct (render_members (json_to_string P) (event_input e)
                           (environmentVariablesOverride props))
    as [request | p] eqn:Hreq.
  - cbn [bindR].
    apply render_members_found in Hreq.
    assert (Hall : forall name, In name (declared props) ->
                                Obj.has name (detail e) = true).
    { intros name Hin. destruct (override_keys _ Hin) as [t Ht].
      pose proof (render_override_entry _ _ Ht) as Hr.
      unfold Obj.has. destruct (Obj.get name (detail e)); [reflexivity|].
      exfalso. clear - Hreq Ht Hr.
      induction Hreq as [|[k t'] [k' v] fs ms [_ Hv] _ IH]; [contradiction|].
      destruct Ht as [Ht | Ht]; [|now apply IH].
      injection Ht as -> ->. simpl in Hv. congruence. }
    destruct (lambda_invoke P (createLambdaFunction props) (JObj request))
      as [payload | err cause] eqn:Hinv.
    + pose proof (run_success_notified payload) as Hn.
      destruct (run P _ _) as [status later].
      eapply Handled_returned; eauto.
    + pose proof (run_failure_notified (JObj [("Catch", error_output err cause)])) as Hn.
      destruct (run P _ _) as [status later].
      eapply Handled_raised; eauto.
  - cbn [bindR].
    destruct (render_members_missing _ _ _ Hreq) as (k & t & Hin & Hre).
    pose proof (render_override_entry _ _ Hin) as Hr.
    destruct (override_entries _ _ Hin) as [Hd _].
    destruct (Obj.get k (detail e)) eqn:Hget.
    + destruct Hr as [v Hv]. congruence.
    + rewrite Hre in Hr. injection Hr as ->.
      now apply Handled_missing_variable.
Qed.

(** What becomes of the variables of the event: they are resolved into the
    payload of the invocation, a string variable as it is in the detail and a
    JSON variable as the string [States.JsonToString] makes of it; a name
    declared both ways is sent the second way. *)
Lemma payload_carries_event_variables (f : LambdaFunction) (request : json)
    (name : string) :
  In (Invoked f request) (snd (handle P props e)) ->
  In name (declared props) ->
  exists v,
    Obj.get name (detail e) = Some v /\
    select [name] request
    = Some (if in_dec string_dec name
                 (names (environmentJSONVariablesFromIncomingEvent props))
            then JStr (json_to_string P v)
            else v).
Proof.
  intros Hin Hdecl.
  destruct (well_configured_parts _ configured) as (_ & _ & Hids & _).
  destruct (@invoked_origin _ _ _ _ _ Hin) as [_ Hrequest].
  rewrite render_ObjectT in Hrequest.
  destruct (render_members (json_to_string P) (event_input e)
                           (environmentVariablesOverride props))
    as [ms | p] eqn:Hms; [|discriminate].
  injection Hrequest as <-. apply render_members_found in Hms.
  pose proof (read_detail_event e _ (Hids _ Hdecl)) as Hread.
  assert (Hget : Obj.get name (environmentVariablesOverride props)
                 = Some (if in_dec string_dec name
                              (names (environmentJSONVariablesFromIncomingEvent props))
                         then JsonToString (ObjectAt ("$.detail." ++ name))
                         else StringAt ("$.detail." ++ name))).
  { unfold environmentVariablesOverride. rewrite !forEach_fold.
    destruct (in_dec string_dec name _) as [Hjson | Hnot].
    - now apply (get_fold_in
                   (fun n => JsonToString (ObjectAt ("$.detail." ++ n)))).
    - rewrite get_fold_notin by exact Hnot.
      apply (get_fold_in (fun n => StringAt ("$.detail." ++ n))).
      unfold declared in Hdecl. apply in_app_or in Hdecl as [H | H];
        [exact H | contradiction]. }
  destruct (rendered_get _ Hms Hget) as (v & Hv & Hrender).
  destruct (in_dec string_dec name _) as [Hjson | Hnot];
    cbn [render bindR] in Hrender; rewrite Hread in Hrender;
    destruct (Obj.get name (detail e)) as [d|]; try discriminate;
    cbn [bindR] in Hrender; injection Hrender as <-;
    exists d; (split; [reflexivity|]); cbn [select]; now rewrite Hv.
Qed.
End Outcomes.

(** ** Reading the outcomes *)

(** All the ways handling an event can go, with the status and trace of each
    written out. *)
Ltac outcome_cases H :=
  inversion H; subst; clear H;
  repeat match goal with
  | N : failure_notified _ _ _ _ |- _ => inversion N; subst; clear N
  | N : success_notified _ _ _ _ _ |- _ => inversion N; subst; clear N
  | S : put_step _ _ _ _ |- _ => inversion S; subst; clear S
  end;
  match goal with
  | E : _ = handle _ _ _ |- _ => try rewrite <- E in *; clear E
  end;
  cbn [fst snd] in *;
  rewrite ?published_after_invocations, ?invocations_repeated,
    ?published_after_invoked, ?invocations_invoked in *;
  cbn [published invocations flat_map app] in *.

Ltac outcomes P props e Hconf :=
  let Hh := fresh "Hh" in
  pose proof (@handle_handled P props e Hconf) as Hh; outcome_cases Hh.

Lemma present_get (name : string) (e : EventEnvelope) :
  present name e = true <-> exists v, Obj.get name (detail e) = Some v.
Proof. apply has_get. Qed.

Lemma well_formed_parts (props : ScriptJobProps) (e : EventEnvelope) :
  well_formed props e = true ->
  present (jobIdentifierKey props) e = true /\
  forall name, In name (declared props) -> present name e = true.
Proof.
  unfold well_formed. intros H. apply andb_true_iff in H as [Hk Hd].
  split; [exact Hk|]. now apply forallb_forall.
Qed.

Lemma exported_keys (props : ScriptJobProps) (payload : json)
    (jobOutput : list (string * json)) :
  exported props payload jobOutput ->
  (forall name, In name (Obj.keys jobOutput) <->
                In name (names (environmentVariablesToOutgoingEvent props))) /\
  (forall name v, In (name, v) jobOutput -> output_field payload name = Some v).
Proof.
  unfold exported. intros H. split.
  - intros name.
    assert (Hk : Obj.keys jobOutput = Obj.keys (jobOutputFields props)).
    { unfold Obj.keys. induction H as [|[k t] [k' v] fs ms [Hk _] _ IH]; simpl.
      - reflexivity.
      - simpl in Hk. now rewrite Hk, IH. }
    rewrite Hk. unfold jobOutputFields. rewrite keys_fold. simpl. intuition.
  - intros name v Hin.
    induction H as [|[k t] [k' v'] fs ms [_ Hv] _ IH]; [contradiction|].
    destruct Hin as [Hin | Hin]; [|now apply IH].
    injection Hin as -> ->. exact Hv.
Qed.

(** An event whose declared names are all there cannot be missing one. *)
Lemma missing_contradiction (name : string) (e : EventEnvelope) :
  present name e = true -> Obj.get name (detail e) = None -> False.
Proof.
  intros Hp Hg. apply present_get in Hp as [v Hv]. congruence.
Qed.

(** ** The scenarios of the spec, run *)

(** Scenario A with a backend whose output is an object: the success event
    carries the identifier and the exported member. *)
Example scenario_A :
  published (snd (handle (Demo.platform Demo.backend_structured)
                         Demo.props Demo.event_A))
  = [(successTask,
      {| DetailType_of := PROVISION_SUCCESS;
         Detail := JObj [("tenantId", JStr "t1");
                         ("jobOutput", JObj [("dbEndpoint", JStr "db.example.com")])];
         Source := "applicationPlaneEventSource";
         EventBusName := busArn Demo.manager |})].
Proof. reflexivity. Qed.

(** Scenario B: the backend fails and the failure event carries the fixed
    status of the provisioning job. *)
Example scenario_B :
  published (snd (handle (Demo.platform Demo.backend_failing)
                         Demo.props Demo.event_A))
  = [(failureTask,
      {| DetailType_of := PROVISION_FAILURE;
         Detail := JObj [("tenantId", JStr "t1");
                         ("jobOutput",
                          JObj [("tenantStatus", JStr "Failed to provision tenant.")])];
         Source := "applicationPlaneEventSource";
         EventBusName := busArn Demo.manager |})].
Proof. reflexivity. Qed.

(** Scenario C: without the identifier no event is published. *)
Example scenario_C :
  published (snd (handle (Demo.platform Demo.backend_structured)
                         Demo.props Demo.event_C)) = [].
Proof. reflexivity. Qed.

(** A transient error of the Lambda service: the invocation is made seven
    times before the failure event is put. *)
Example service_exception_is_retried :
  snd (handle (Demo.platform Cases.backend_unreachable) Demo.props Demo.event_A)
  = (repeat (Invoked (createLambdaFunction Demo.props)
                     (JObj [("tier", JStr "premium")])) 7
     ++ [Published failureTask (failure_event Demo.props (JStr "t1"))])%list.
Proof. reflexivity. Qed.

(** A script with a substitution is not run as it is written: what the
    invocation gives is what the host says of the program. *)
Example substitution_is_not_template_text :
  template_text "echo ${HOME}" = false /\
  template_text "echo $HOME" = true /\
  template_text "./provision.sh" = true.
Proof. repeat split. Qed.

(** The deprovisioning job differs in its events and in its status. *)
Example deprovisioning_failure :
  let job := DeprovisioningLambdaScriptJob Demo.lifecycle in
  let offboarding :=
    {| kind := OFFBOARDING_REQUEST;
       source := "controlPlaneEventSource";
       detail := [("tenantId", JStr "t1"); ("tier", JStr "premium")] |} in
  job_incomingEvent job = OFFBOARDING_REQUEST /\
  published (snd (run (Demo.platform Demo.backend_failing)
                      (definition (provisioningStateMachine job))
                      (event_input offboarding)))
  = [(failureTask,
      {| DetailType_of := DEPROVISION_FAILURE;
         Detail := JObj [("tenantId", JStr "t1");
                         ("jobOutput",
                          JObj [("tenantStatus", JStr "Failed to deprovision tenant.")])];
         Source := "applicationPlaneEventSource";
         EventBusName := busArn Demo.manager |})].
Proof. split; reflexivity. Qed.

(** * The claims *)

(** ** C1 *)

(** C1, as stated, fails on the state machine: the job of scenario A, run on
    the inline code of its own function, handles the well-formed event of
    scenario A with an accepting bus and publishes nothing.  The script
    prints its result on standard output, the payload is [{output: text}],
    the path [$.startLambda.Payload.output.dbEndpoint] is not found in it
    and the success task ends the execution before the event is put. *)
Lemma C1_counterexample :
  let P := Demo.node_platform (Demo.host_printing "dbEndpoint=db.example.com" 2) in
  well_configured Demo.props = true /\
  well_formed Demo.props Demo.event_A = true /\
  publish_accepts P /\
  published (snd (handle P Demo.props Demo.event_A)) = [].
Proof.
  cbv zeta. repeat split.
  intros es. eexists. reflexivity.
Qed.

(** C1, amended: for a well-configured job and a well-formed incoming event,
    when the publish step does not fail and every name of
    [outputVarsToEvent] is found in the output of the payload whenever the
    backend returns one, handling the event publishes exactly one outgoing
    event: either the success event from the success task or the failure
    event from the failure task. *)
Theorem C1_exactly_one_outgoing_event
    (P : Platform) (props : ScriptJobProps) (e : EventEnvelope) :
  well_configured props = true ->
  well_formed props e = true ->
  publish_accepts P ->
  (forall fn request payload,
      In (Invoked fn request) (snd (handle P props e)) ->
      lambda_invoke P fn request = Returned payload ->
      forall name, In name (names (environmentVariablesToOutgoingEvent props)) ->
                   output_field payload name <> None) ->
  exists task entry,
    published (snd (handle P props e)) = [(task, entry)] /\
    ((task = successTask /\ DetailType_of entry = success (outgoingEvent props)) \/
     (task = failureTask /\ DetailType_of entry = failure (outgoingEvent props))).
Proof.
  intros Hconf Hwf Hpub Hout.
  destruct (well_formed_parts _ _ Hwf) as [Hkey Hdecl].
  outcomes P props e Hconf.
  - (* a declared name is missing *)
    exfalso. eapply missing_contradiction; [apply Hdecl|]; eassumption.
  - (* failure branch, identifier missing *)
    exfalso. eapply missing_contradiction; eassumption.
  - (* failure event accepted *)
    do 2 eexists. split; [reflexivity|]. right. split; reflexivity.
  - (* failure event rejected *)
    exfalso. destruct (Hpub [failure_event props id]) as [r Hr]. congruence.
  - exfalso. eapply missing_contradiction; eassumption.
  - (* an exported name is missing in the output *)
    exfalso. eapply Hout; [left; reflexivity | eassumption | eassumption | assumption].
  - do 2 eexists. split; [reflexivity|]. left. split; reflexivity.
  - exfalso. destruct (Hpub [success_event props id jobOutput]) as [r Hr]. congruence.
Qed.

Lemma C1_witness :
  exists task entry,
    published (snd (handle (Demo.platform Demo.backend_structured)
                           Demo.props Demo.event_A)) = [(task, entry)] /\
    ((task = successTask /\
      DetailType_of entry = success (outgoingEvent Demo.props)) \/
     (task = failureTask /\
      DetailType_of entry = failure (outgoingEvent Demo.props))).
Proof.
  apply C1_exactly_one_outgoing_event.
  - reflexivity.
  - reflexivity.
  - intros es. eexists. reflexivity.
  - intros fn request payload _ Hret name Hname.
    injection Hret as <-.
    destruct Hname as [<- | []]. discriminate.
Defined.

(** ** C2 *)

Lemma jobOutput_of_failure_event (props : ScriptJobProps) (id : json) :
  well_configured props = true ->
  jobOutput_of (failure_event props id) = Some (JObj (jobFailureStatus props)).
Proof.
  intros Hconf. destruct (well_configured_parts _ Hconf) as (_ & Hne & _ & _).
  unfold jobOutput_of, failure_event, failure_entry. cbn [Detail select Obj.get].
  destruct (String.eqb_spec "jobOutput" (jobIdentifierKey props)) as [Heq | _].
  - exfalso. apply Hne. now symmetry.
  - reflexivity.
Qed.

Lemma jobOutput_of_success_event (props : ScriptJobProps) (id : json)
    (jobOutput : list (string * json)) :
  well_configured props = true ->
  jobOutput_of (success_event props id jobOutput) = Some (JObj jobOutput).
Proof.
  intros Hconf. destruct (well_configured_parts _ Hconf) as (_ & Hne & _ & _).
  unfold jobOutput_of, success_event, success_entry. cbn [Detail select Obj.get].
  destruct (String.eqb_spec "jobOutput" (jobIdentifierKey props)) as [Heq | _].
  - exfalso. apply Hne. now symmetry.
  - reflexivity.
Qed.

(** The event found among the published ones is the one the execution put. *)
Ltac pin_published H :=
  cbn [In] in H;
  first [ contradiction
        | destruct H as [H | H]; [injection H as <- <- | contradiction] ].

(** The invocation found in a trace is the one the execution made. *)
Ltac pin_invocation H :=
  repeat first
    [ apply in_cons_repeat_app in H
    | apply in_repeat_app in H
    | progress cbn [In] in H
    | destruct H as [H | H]; [try discriminate H | ] ];
  try contradiction;
  try (injection H as <- <-).




(** ** C3 *)


(** The tenant provisioning handler answers every invocation, also with
    [{error}]: behind this state machine it never leads to the failure
    task. *)
Lemma tenantprov_never_reaches_failure_task {W : Type}
    (H : Tenantprov.Host W) (w : W) (to_string : json -> string)
    (bus : list EventEntry -> PutResult)
    (props : ScriptJobProps) (e : EventEnvelope) (task : string) (entry : EventEntry) :
  In (task, entry)
     (published (snd (handle {| json_to_string := to_string;
                                lambda_invoke := Tenantprov.invoke H w;
                                put_events := bus |} props e))) ->
  task = successTask.
Proof.
  intros Hpub.
  destruct (@published_origin _ _ _ _ _ Hpub) as (request & _ & Hcase).
  destruct Hcase as [(payload & d & _ & -> & _) | (err & cause & d & Hinv & _)].
  - reflexivity.
  - discriminate Hinv.
Qed.



(** ** C4 *)

Lemma absent_get (name : string) (e : EventEnvelope) :
  present name e = false <-> Obj.get name (detail e) = None.
Proof.
  unfold present, Obj.has. destruct (Obj.get name (detail e)); split; congruence.
Qed.

(** C4, as stated, fails on the state machine: for the event of scenario C,
    which lacks the identifier [tenantId], the backend is invoked; the
    identifier is only read when the outgoing event is built. *)
Lemma C4_counterexample :
  let P := Demo.platform Demo.backend_structured in
  present (jobIdentifierKey Demo.props) Demo.event_C = false /\
  invocations (snd (handle P Demo.props Demo.event_C))
  = [(createLambdaFunction Demo.props, JObj [("tier", JStr "premium")])].
Proof.
  cbv zeta. split; reflexivity.
Qed.

(** C4, amended: for a well-configured job, an incoming event whose detail
    lacks a name declared in [stringVarsFromEvent] or [jsonVarsFromEvent] is
    rejected with an error naming the path of a missing name, before the
    backend is invoked: the trace is empty, so there is no invocation and no
    outgoing event.  An event whose detail lacks the identifier has no
    outgoing event either. *)
Theorem C4_missing_name_is_rejected
    (P : Platform) (props : ScriptJobProps) (e : EventEnvelope) :
  well_configured props = true ->
  ((exists name, In name (declared props) /\ present name e = false) ->
   exists name,
     In name (declared props) /\ present name e = false /\
     handle P props e
     = (FAILED "States.Runtime" (missing_path_cause ("$.detail." ++ name)), [])) /\
  (present (jobIdentifierKey props) e = false ->
   published (snd (handle P props e)) = []).
Proof.
  intros Hconf. split.
  - intros (missing & Hmissing & Habsent).
    outcomes P props e Hconf;
      try (exfalso;
           match goal with
           | Hall : forall name, In name (declared props) -> _ |- _ =>
               specialize (Hall _ Hmissing); unfold present in Habsent; congruence
           end).
    exists name. repeat split; [assumption | now apply absent_get].
  - intros Habsent. apply absent_get in Habsent.
    outcomes P props e Hconf; try reflexivity; congruence.
Qed.

Lemma C4_witness :
  let P := Demo.platform Demo.backend_structured in
  exists name,
    In name (declared Demo.props) /\ present name Demo.event_no_tier = false /\
    handle P Demo.props Demo.event_no_tier
    = (FAILED "States.Runtime" (missing_path_cause ("$.detail." ++ name)), []).
Proof.
  intros P.
  destruct (@C4_missing_name_is_rejected P Demo.props Demo.event_no_tier)
    as [Hrejected _].
  - reflexivity.
  - apply Hrejected. exists "tier". split; [left; reflexivity | reflexivity].
Defined.

(** ** C5 *)

(** C5, as stated, fails on the state machine: when the output of the
    payload lacks an exported name, the name is not left out of [jobOutput];
    the path is not found, the success task ends the execution and no event
    is published. *)
Lemma C5_counterexample :
  let P := Demo.platform Demo.backend_partial in
  lambda_invoke P (createLambdaFunction Demo.props) (JObj [("tier", JStr "premium")])
  = Returned (JObj [("output", JObj [("other", JStr "x")])]) /\
  well_formed Demo.props Demo.event_A = true /\
  publish_accepts P /\
  published (snd (handle P Demo.props Demo.event_A)) = [].
Proof.
  cbv zeta. repeat split.
  intros es. eexists. reflexivity.
Qed.

(** C5, amended: when the backend was invoked and returned a payload, every
    outgoing event is the success event, and its [jobOutput] holds exactly
    the names of [outputVarsToEvent], each with the value found under that
    name in the output of the payload.  When a name of [outputVarsToEvent]
    is not found in the output, no event is published.  When all are found,
    the detail holds the identifier and the publish step does not fail, the
    success event is published. *)
Theorem C5_success_event_exports_output_names
    (P : Platform) (props : ScriptJobProps) (e : EventEnvelope)
    (fn : LambdaFunction) (request payload : json) :
  well_configured props = true ->
  In (Invoked fn request) (snd (handle P props e)) ->
  lambda_invoke P fn request = Returned payload ->
  (forall task entry,
      In (task, entry) (published (snd (handle P props e))) ->
      task = successTask /\
      DetailType_of entry = success (outgoingEvent props) /\
      exists jobOutput,
        jobOutput_of entry = Some (JObj jobOutput) /\
        (forall name, In name (Obj.keys jobOutput) <->
                      In name (names (environmentVariablesToOutgoingEvent props))) /\
        (forall name v, In (name, v) jobOutput ->
                        output_field payload name = Some v)) /\
  ((exists name, In name (names (environmentVariablesToOutgoingEvent props)) /\
                 output_field payload name = None) ->
   published (snd (handle P props e)) = []) /\
  (present (jobIdentifierKey props) e = true ->
   publish_accepts P ->
   (forall name, In name (names (environmentVariablesToOutgoingEvent props)) ->
                 output_field payload name <> None) ->
   exists entry, published (snd (handle P props e)) = [(successTask, entry)]).
Proof.
  intros Hconf Hin Hret. split; [|split].
  - intros task entry Hpub.
    outcomes P props e Hconf; pin_invocation Hin; try congruence;
      pin_published Hpub.
    split; [reflexivity|]. split; [reflexivity|].
    exists jobOutput. split; [now apply jobOutput_of_success_event|].
    apply exported_keys.
    match goal with
    | X : lambda_invoke _ _ _ = Returned ?p |- _ =>
        rewrite X in Hret; injection Hret as <-
    end.
    assumption.
  - intros (missing & Hmissing & Hnone).
    outcomes P props e Hconf; pin_invocation Hin; try congruence; try reflexivity.
    exfalso.
    match goal with
    | X : lambda_invoke _ _ _ = Returned ?p |- _ =>
        rewrite X in Hret; injection Hret as <-
    end.
    match goal with
    | X : exported _ _ _ |- _ => destruct (exported_keys X) as [Hkeys Hvals]
    end.
    apply Hkeys in Hmissing. unfold Obj.keys in Hmissing.
    apply in_map_iff in Hmissing as ([k v] & Hk & Hkv). simpl in Hk. subst k.
    apply Hvals in Hkv. congruence.
  - intros Hkey Hpub Hall.
    outcomes P props e Hconf; pin_invocation Hin; try congruence.
    + exfalso. eapply missing_contradiction; eassumption.
    + exfalso.
      match goal with
      | X : lambda_invoke _ _ _ = Returned ?p |- _ =>
          rewrite X in Hret; injection Hret as <-
      end.
      eapply Hall; eassumption.
    + eexists. reflexivity.
    + exfalso.
      match goal with
      | X : put_events P ?es = Rejected _ _ |- _ =>
          destruct (Hpub es) as [r Hr]; congruence
      end.
Qed.

Lemma C5_witness :
  let P := Demo.platform Demo.backend_structured in
  exists entry,
    published (snd (handle P Demo.props Demo.event_A)) = [(successTask, entry)] /\
    jobOutput_of entry = Some (JObj [("dbEndpoint", JStr "db.example.com")]).
Proof.
  intros P.
  destruct (@C5_success_event_exports_output_names
              P Demo.props Demo.event_A
              (createLambdaFunction Demo.props) (JObj [("tier", JStr "premium")])
              (JObj [("output", JObj [("dbEndpoint", JStr "db.example.com")])]))
    as (_ & _ & Hpublished).
  - reflexivity.
  - left. reflexivity.
  - reflexivity.
  - destruct Hpublished as [entry Hentry].
    + reflexivity.
    + intros es. eexists. reflexivity.
    + intros name [<- | []]. discriminate.
    + exists entry. split; [exact Hentry|].
      injection Hentry as <-. reflexivity.
Defined.

(** ** C6 *)

(** For a script that the program runs as written, the inline code never
    looks at the event it is invoked with: what the invocation gives depends
    on the function alone. *)
Lemma invoke_function_ignores_event (H : NodeHost) (to_string : json -> string)
    (fn : LambdaFunction) (event1 event2 : json) :
  template_text (fn_script fn) = true ->
  invoke_function H to_string fn event1 = invoke_function H to_string fn event2.
Proof. intros Htext. unfold invoke_function. now rewrite Htext. Qed.

Lemma script_environment_is_static (props : ScriptJobProps) (event : json) :
  script_environment (createLambdaFunction props) event
  = Obj.assign [] (names (scriptEnvironmentVariables props)).
Proof.
  unfold script_environment, createLambdaFunction. cbn [fn_environment].
  now destruct (scriptEnvironmentVariables props).
Qed.

(** C6 fails on the code at the event of scenario A: the value of [tier] is
    resolved from the event and sent as the payload of the invocation, but
    the script runs with the static variables only; a script that looks for
    [tier] in its environment does not find it. *)
Theorem C6_script_environment_lacks_event_variables :
  let P := Demo.node_platform Demo.host_probing_tier in
  let fn := createLambdaFunction Demo.props_no_output in
  let request := JObj [("tier", JStr "premium")] in
  invocations (snd (handle P Demo.props_no_output Demo.event_A)) = [(fn, request)] /\
  script_environment fn request = [("REGION", "us-east-1")] /\
  Obj.get "tier" (script_environment fn request) = None /\
  lambda_invoke P fn request = Returned (JObj [("output", JStr "tier is not set")]).
Proof.
  cbv zeta. repeat split.
Qed.

(** ** C7 *)






(** ** C8 and C9: the tenant provisioning handler *)
Section TenantprovHandler.
Import Tenantprov.
Context {W : Type}.
Variable H : Host W.
Variable w : W.
Variable event : json.

(** C8: once the script has been run, anything on its standard error makes
    the handler answer [{error}], also when the command exited with status
    zero and wrote to its standard output, in which case the message is the
    standard error behind a fixed prefix; and the handler answers [{output}]
    only when the command exited with status zero and its standard error is
    empty, the output being its standard output. *)
Theorem C8_stderr_is_an_error :
  (forall script w',
      event_script event = inr script ->
      writeFile H w scriptPath (scriptContent script) = inl w' ->
      exec_stderr (execCommand H w' command) <> EmptyString ->
      (exists message, handler H w event = error message) /\
      (exec_error (execCommand H w' command) = None ->
       handler H w event
       = error ("Script execution error: " ++ exec_stderr (execCommand H w' command)))) /\
  (forall stdout,
      handler H w event = output stdout ->
      exists script w',
        event_script event = inr script /\
        writeFile H w scriptPath (scriptContent script) = inl w' /\
        exec_error (execCommand H w' command) = None /\
        exec_stderr (execCommand H w' command) = EmptyString /\
        exec_stdout (execCommand H w' command) = stdout).
Proof.
  unfold handler. split.
  - intros script w' -> -> Hstderr.
    apply String.eqb_neq in Hstderr.
    destruct (exec_error (execCommand H w' command)) as [message|] eqn:Herr.
    + split; [eauto | discriminate].
    + rewrite Hstderr. cbn [negb]. split; [eauto | reflexivity].
  - intros stdout.
    destruct (event_script event) as [message | script] eqn:Hscript; [discriminate|].
    destruct (writeFile H w scriptPath (scriptContent script)) as [w' | message]
      eqn:Hwrite; [|discriminate].
    destruct (exec_error (execCommand H w' command)) as [message|] eqn:Herr;
      [discriminate|].
    destruct (String.eqb_spec (exec_stderr (execCommand H w' command)) EmptyString)
      as [Hempty | Hsome]; cbn [negb]; [|discriminate].
    intros [= <-]. exists script, w'. repeat split; try reflexivity; assumption.
Qed.

(** C9, amended: a null event has no [script] to read and is answered with
    [{error}].  Any other event with no [script] field, or a falsy one, is
    handled as an event whose script is the default script: the handler
    writes the default script to [/tmp/prov-script.sh] and runs it with
    bash in the state the write leaves.  When the write fails or bash
    reports an error the answer is [{error}]; when bash exits with status
    zero and nothing on its standard error the answer is [{output}] with
    what bash printed, which is the line [No script provided!] where bash
    runs the default script as written. *)
Theorem C9_missing_script_runs_default :
  (event = JNull ->
   handler H w event = error "Cannot read properties of null (reading 'script')") /\
  (no_script event = true ->
   handler H w event = handler H w (JObj [("script", JStr defaultScript)]) /\
   (forall message,
       writeFile H w scriptPath (JStr defaultScript) = inr message ->
       handler H w event = error message) /\
   (forall w',
       writeFile H w scriptPath (JStr defaultScript) = inl w' ->
       (forall message,
           exec_error (execCommand H w' command) = Some message ->
           handler H w event = error message) /\
       (exec_error (execCommand H w' command) = None ->
        exec_stderr (execCommand H w' command) = EmptyString ->
        handler H w event = output (exec_stdout (execCommand H w' command)) /\
        (exec_stdout (execCommand H w' command) = defaultOutput ->
         handler H w event = output defaultOutput /\
         String.index 0 "No script provided!" defaultOutput = Some 0)))).
Proof.
  split; [intros ->; reflexivity|].
  unfold no_script, handler.
  destruct (event_script event) as [message | script] eqn:Hscript; [discriminate|].
  intros Hfalsy. apply negb_true_iff in Hfalsy.
  assert (Hcontent : scriptContent script = JStr defaultScript).
  { unfold scriptContent. destruct script as [v|]; [now rewrite Hfalsy | reflexivity]. }
  rewrite Hcontent. split; [reflexivity|]. split.
  - intros message ->. reflexivity.
  - intros w' ->. split.
    + intros message ->. reflexivity.
    + intros -> ->. cbn [negb String.eqb]. split; [reflexivity|].
      intros ->. split; reflexivity.
Qed.
End TenantprovHandler.

Lemma C8_witness :
  Tenantprov.handler Demo.machine [] (JObj [("script", JStr "./provision.sh")])
  = Tenantprov.error "Script execution error: warning: deprecated option".
Proof.
  destruct (@C8_stderr_is_an_error _ Demo.machine []
              (JObj [("script", JStr "./provision.sh")])) as [Hstderr _].
  destruct (Hstderr (Some (JStr "./provision.sh"))
                    [(Tenantprov.scriptPath, "./provision.sh")])
    as [_ Hzero].
  - reflexivity.
  - reflexivity.
  - discriminate.
  - apply Hzero. reflexivity.
Defined.

(** C9, as stated, fails on the handler: a null event has no [script] field,
    and reading [event.script] throws; the handler answers [{error}] with
    the message of that exception and no script is run. *)
Lemma C9_counterexample :
  select ["script"] JNull = None /\
  Tenantprov.handler Demo.machine [] JNull
  = Tenantprov.error "Cannot read properties of null (reading 'script')".
Proof. split; reflexivity. Qed.

Lemma C9_witness :
  Tenantprov.handler Demo.machine [] (JObj [("tenantId", JStr "t1")])
  = Tenantprov.output Tenantprov.defaultOutput.
Proof.
  destruct (@C9_missing_script_runs_default _ Demo.machine []
              (JObj [("tenantId", JStr "t1")])) as [_ Hdefault].
  destruct (Hdefault eq_refl) as (_ & _ & Hruns).
  destruct (Hruns [(Tenantprov.scriptPath, Tenantprov.defaultScript)] eq_refl)
    as [_ Hprinted].
  destruct (Hprinted eq_refl eq_refl) as [Houtput _].
  exact Houtput.
Defined.

(** ** C10 *)

(** C10, as stated, fails on the state machine: for a job whose identifier
    key is [jobOutput] the two keys of the claim are one.  The detail of the
    failure event has the single key [jobOutput], and what it holds there is
    the failure payload, not the identifier of the incoming event. *)
Lemma C10_counterexample :
  let P := Demo.platform Demo.backend_failing in
  Obj.get (jobIdentifierKey Cases.props_colliding) (detail Cases.event_colliding)
  = Some (JStr "t1") /\
  exists entry fields,
    published (snd (handle P Cases.props_colliding Cases.event_colliding))
    = [(failureTask, entry)] /\
    Detail entry = JObj fields /\
    Obj.keys fields = ["jobOutput"] /\
    Obj.get (jobIdentifierKey Cases.props_colliding) fields <> Some (JStr "t1").
Proof.
  cbv zeta. split; [reflexivity|].
  do 2 eexists. split; [reflexivity|]. split; [reflexivity|].
  split; [reflexivity | discriminate].
Qed.

(** C10, amended: for a job whose identifier key is a field name other than
    [jobOutput], the detail of every outgoing event, success or failure, is
    an object with exactly two keys: the identifier key, with the value the
    detail of the incoming event has at that key, and [jobOutput], which is
    an object.  On success with no name to export ([outputVarsToEvent]
    absent or empty) it is the empty object; on failure it is the failure
    payload. *)
Theorem C10_outgoing_detail_has_identifier_and_jobOutput
    (P : Platform) (props : ScriptJobProps) (e : EventEnvelope)
    (task : string) (entry : EventEntry) :
  identifier (jobIdentifierKey props) = true ->
  jobIdentifierKey props <> "jobOutput" ->
  In (task, entry) (published (snd (handle P props e))) ->
  exists id jobOutput,
    Obj.get (jobIdentifierKey props) (detail e) = Some id /\
    Detail entry = JObj [(jobIdentifierKey props, id); ("jobOutput", JObj jobOutput)] /\
    Obj.keys [(jobIdentifierKey props, id); ("jobOutput", JObj jobOutput)]
    = [jobIdentifierKey props; "jobOutput"] /\
    (task = successTask ->
     names (environmentVariablesToOutgoingEvent props) = [] -> jobOutput = []) /\
    (task = failureTask -> jobOutput = jobFailureStatus props).
Proof.
  intros Hid Hne Hpub.
  destruct (@published_origin _ _ _ _ _ Hpub) as (request & _ & Hcase).
  destruct Hcase as [(payload & d & _ & -> & Hd & ->)
                    | (err & cause & d & _ & -> & Hd & ->)].
  - destruct (@success_detail_shape props Hne _ e _ Hid _ Hd)
      as (id & jobOutput & Hget & -> & Hjo).
    exists id, jobOutput. repeat split; try assumption.
    + intros _ Hnone. unfold jobOutputFields in Hjo. rewrite Hnone in Hjo.
      cbn in Hjo. now injection Hjo as <-.
    + intros Heq. discriminate Heq.
  - destruct (@failure_detail_shape props Hne _ e _ Hid _ Hd) as (id & Hget & ->).
    exists id, (jobFailureStatus props). repeat split; try assumption.
    intros Heq. discriminate Heq.
Qed.

Lemma C10_witness :
  let P := Demo.platform Demo.backend_structured in
  exists id jobOutput,
    Obj.get "tenantId" (detail Demo.event_A) = Some id /\
    Detail (success_event Demo.props (JStr "t1")
                          [("dbEndpoint", JStr "db.example.com")])
    = JObj [("tenantId", id); ("jobOutput", JObj jobOutput)].
Proof.
  intros P.
  destruct (@C10_outgoing_detail_has_identifier_and_jobOutput
              P Demo.props Demo.event_A successTask
              (success_event Demo.props (JStr "t1")
                             [("dbEndpoint", JStr "db.example.com")]))
    as (id & jobOutput & Hid & Hdetail & _).
  - reflexivity.
  - discriminate.
  - left. reflexivity.
  - exists id, jobOutput. split; [exact Hid | exact Hdetail].
Defined.

(** * Further properties of the construct *)

(** ** Paths, for any name *)

Lemma read_detail_event_any (e : EventEnvelope) (name : string) :
  read_path ("$.detail." ++ name) (event_input e)
  = select (segments name) (JObj (detail e)).
Proof. reflexivity. Qed.

Lemma read_detail_any (e : EventEnvelope) (x : json) (name : string) :
  read_path ("$.detail." ++ name) (after_invoke e x)
  = select (segments name) (JObj (detail e)).
Proof. reflexivity. Qed.

Lemma read_output_any (e : EventEnvelope) (x : json) (name : string) :
  read_path ("$.startLambda.Payload.output." ++ name) (after_invoke e x)
  = select ("Payload" :: "output" :: segments name) x.
Proof. reflexivity. Qed.

(** ** The trace and the status of an execution *)

Lemma write_after_invoke (rp : string) (response : json)
    (e : EventEnvelope) (x : json) :
  rp = "$.notifySuccessEventBridgeTask" \/ rp = "$.notifyFailureEventBridgeTask" ->
  exists out, write_path rp response (after_invoke e x) = Some out.
Proof. intros [-> | ->]; eexists; reflexivity. Qed.

Section Executions.
Variable P : Platform.
Variable props : ScriptJobProps.
Variable e : EventEnvelope.

(** The ways a task that puts one entry can end, on the state the
    invocation step leaves. *)
Lemma put_task_ends (id rp : string) (t : PutEventsEntry) (x : json) :
  rp = "$.notifySuccessEventBridgeTask" \/ rp = "$.notifyFailureEventBridgeTask" ->
  let r := run P (Task id (EventBridgePutEvents [t]) rp [] [] None)
               (after_invoke e x) in
  (exists err cause, r = (FAILED err cause, [])) \/
  (exists out d,
      render (json_to_string P) (after_invoke e x) (entry_detail t) = Found d /\
      r = (SUCCEEDED out, [Published id (entry_of t d)])).
Proof.
  intros Hrp r. subst r. rewrite run_put_task.
  destruct (render (json_to_string P) (after_invoke e x) (entry_detail t))
    as [d | p]; [|left; eauto].
  destruct (put_events P [entry_of t d]) as [response | err cause]; [|left; eauto].
  destruct (write_after_invoke response e x Hrp) as [out Hout].
  rewrite Hout. right. eauto.
Qed.


(** X2: an execution succeeds exactly when it published an event, the
    failure event included: after a failed invocation whose failure event
    was put, the execution ends as succeeded; an execution that fails has
    published nothing. *)
Theorem X2_execution_succeeds_iff_event_published :
  (forall out,
      fst (handle P props e) = SUCCEEDED out ->
      exists task entry, published (snd (handle P props e)) = [(task, entry)]) /\
  (forall err cause,
      fst (handle P props e) = FAILED err cause ->
      published (snd (handle P props e)) = []).
Proof.
  rewrite handle_unfold.
  destruct (render _ _ _) as [request | p];
    [|split; [discriminate | reflexivity]].
  destruct (lambda_invoke P (createLambdaFunction props) request)
    as [payload | err cause];
    unfold notifySuccessEventBridgeTask, notifyFailureEventBridgeTask,
      new_EventBridgePutEvents;
    match goal with
    | |- context [run P (Task ?id (EventBridgePutEvents [?t]) ?rp [] [] None)
                      (after_invoke e ?x)] =>
        destruct (@put_task_ends id rp t x) as [(er & ca & ->) | (out & d & _ & ->)];
        [auto | |]
    end;
    cbn [fst snd]; rewrite ?published_after_invocations;
    cbn [published flat_map app];
    (split; [try discriminate; eauto | try discriminate; reflexivity]).
Qed.

(** X3: every event is put on the bus of the event manager, under the source
    the manager registers for the kind of the event, and its kind is one of
    the two outgoing kinds of the job. *)
Theorem X3_event_source_and_bus (task : string) (entry : EventEntry) :
  In (task, entry) (published (snd (handle P props e))) ->
  EventBusName entry = busArn (eventManager props) /\
  Source entry = supportedEvents (eventManager props) (DetailType_of entry) /\
  (DetailType_of entry = success (outgoingEvent props) \/
   DetailType_of entry = failure (outgoingEvent props)).
Proof.
  intros Hpub.
  destruct (@published_origin _ _ _ _ _ Hpub) as (request & _ & Hcase).
  destruct Hcase as [(payload & d & _ & _ & _ & ->)
                    | (err & cause & d & _ & _ & _ & ->)];
    repeat split; auto.
Qed.
End Executions.

(** ** What an execution reads of the incoming event *)

Lemma set_set {V : Type} (o : list (string * V)) (k : string) (v v' : V) :
  Obj.set k v (Obj.set k v' o) = Obj.set k v o.
Proof.
  induction o as [|[k0 v0] rest IH]; simpl.
  - now rewrite String.eqb_refl.
  - destruct (String.eqb k k0) eqn:E; simpl; rewrite E; [reflexivity|].
    now rewrite IH.
Qed.

(** The detail of the success event, whatever the identifier key. *)
Lemma exportedVarObj_any (props : ScriptJobProps) :
  exportedVarObj props
  = Obj.set "jobOutput" (ObjectT (jobOutputFields props))
      [(jobIdentifierKey props, StringAt ("$.detail." ++ jobIdentifierKey props))].
Proof.
  unfold exportedVarObj, jobOutputFields. rewrite forEach_fold.
  cbn [Obj.set].
  set (base := [(jobIdentifierKey props,
                 StringAt ("$.detail." ++ jobIdentifierKey props))]).
  enough (Hgen : forall (l : list string) (acc : list (string * Template)),
             fold_left
               (fun acc0 exportedVar =>
                  set_jobOutput exportedVar
                    (StringAt ("$.startLambda.Payload.output." ++ exportedVar)) acc0)
               l (Obj.set "jobOutput" (ObjectT acc) base)
             = Obj.set "jobOutput"
                 (ObjectT
                    (fold_left
                       (fun acc0 exportedVar =>
                          Obj.set exportedVar
                            (StringAt ("$.startLambda.Payload.output." ++ exportedVar))
                            acc0)
                       l acc))
                 base)
    by apply Hgen.
  induction l as [|n l IH]; intros acc; cbn [fold_left]; [reflexivity|].
  unfold set_jobOutput at 2. rewrite get_set_same, set_set. apply IH.
Qed.

Lemma render_members_ext (to_string : json -> string) (i1 i2 : json)
    (fs : list (string * Template)) :
  (forall k t, In (k, t) fs -> render to_string i1 t = render to_string i2 t) ->
  render_members to_string i1 fs = render_members to_string i2 fs.
Proof.
  induction fs as [|[k t] rest IH]; intros Hall; simpl; [reflexivity|].
  rewrite (Hall k t) by now left.
  rewrite IH by (intros k' t' Hin; apply (Hall k'); now right).
  reflexivity.
Qed.

Section SameDetail.
Variable P : Platform.
Variable props : ScriptJobProps.
Variables e1 e2 : EventEnvelope.
Hypothesis same : detail e1 = detail e2.

Lemma render_payload_same :
  render (json_to_string P) (event_input e1)
         (ObjectT (environmentVariablesOverride props))
  = render (json_to_string P) (event_input e2)
           (ObjectT (environmentVariablesOverride props)).
Proof.
  rewrite !render_ObjectT. f_equal. apply render_members_ext.
  intros k t Hin. destruct (override_entries _ _ _ Hin) as [_ [-> | ->]];
    cbn [render]; now rewrite !read_detail_event_any, same.
Qed.

Lemma render_jobOutput_same (x : json) :
  render (json_to_string P) (after_invoke e1 x) (ObjectT (jobOutputFields props))
  = render (json_to_string P) (after_invoke e2 x) (ObjectT (jobOutputFields props)).
Proof.
  rewrite !render_ObjectT. f_equal. apply render_members_ext.
  intros k t Hin. destruct (jobOutput_entries _ _ _ Hin) as [_ ->].
  cbn [render]. now rewrite !read_output_any.
Qed.

Lemma render_identifier_same (x : json) (name : string) :
  render (json_to_string P) (after_invoke e1 x) (StringAt ("$.detail." ++ name))
  = render (json_to_string P) (after_invoke e2 x) (StringAt ("$.detail." ++ name)).
Proof. cbn [render]. now rewrite !read_detail_any, same. Qed.

Lemma render_success_detail_same (x : json) :
  render (json_to_string P) (after_invoke e1 x) (ObjectT (exportedVarObj props))
  = render (json_to_string P) (after_invoke e2 x) (ObjectT (exportedVarObj props)).
Proof.
  rewrite exportedVarObj_any, !render_ObjectT. f_equal.
  apply render_members_ext. cbn [Obj.set].
  destruct (String.eqb "jobOutput" (jobIdentifierKey props)); intros k t Hin.
  - destruct Hin as [[= <- <-] | []]. apply render_jobOutput_same.
  - destruct Hin as [[= <- <-] | [[= <- <-] | []]].
    + exact (render_identifier_same x (jobIdentifierKey props)).
    + apply render_jobOutput_same.
Qed.

Lemma render_failure_detail_same (x : json) :
  render (json_to_string P) (after_invoke e1 x) (ObjectT (failureDetail props))
  = render (json_to_string P) (after_invoke e2 x) (ObjectT (failureDetail props)).
Proof.
  unfold failureDetail. rewrite !render_ObjectT. f_equal.
  apply render_members_ext. cbn [Obj.set].
  destruct (String.eqb "jobOutput" (jobIdentifierKey props)); intros k t Hin.
  - destruct Hin as [[= <- <-] | []]. reflexivity.
  - destruct Hin as [[= <- <-] | [[= <- <-] | []]].
    + exact (render_identifier_same x (jobIdentifierKey props)).
    + reflexivity.
Qed.
End SameDetail.

Lemma put_task_trace (P : Platform) (id rp : string) (t : PutEventsEntry) (x : json) :
  snd (run P (Task id (EventBridgePutEvents [t]) rp [] [] None) x)
  = match render (json_to_string P) x (entry_detail t) with
    | Found d =>
        match put_events P [entry_of t d] with
        | Accepted _ => [Published id (entry_of t d)]
        | Rejected _ _ => []
        end
    | Missing _ => []
    end.
Proof.
  rewrite run_put_task.
  destruct (render (json_to_string P) x (entry_detail t)) as [d | p]; [|reflexivity].
  destruct (put_events P [entry_of t d]); reflexivity.
Qed.

Lemma handle_trace (P : Platform) (props : ScriptJobProps) (e : EventEnvelope) :
  snd (handle P props e)
  = match render (json_to_string P) (event_input e)
                 (ObjectT (environmentVariablesOverride props)) with
    | Missing _ => []
    | Found request =>
        match lambda_invoke P (createLambdaFunction props) request with
        | Returned v =>
            Invoked (createLambdaFunction props) request ::
            snd (run P (notifySuccessEventBridgeTask props (busArn (eventManager props)))
                     (after_invoke e (invoke_result v)))
        | Raised err cause =>
            (repeat (Invoked (createLambdaFunction props) request) (attempts_on err)
             ++
             snd (run P (notifyFailureEventBridgeTask props
                           (busArn (eventManager props)))
                      (after_invoke e (JObj [("Catch", error_output err cause)]))))%list
        end
    end.
Proof.
  rewrite handle_unfold.
  destruct (render _ _ _) as [request | p]; [|reflexivity].
  destruct (lambda_invoke P (createLambdaFunction props) request);
    now destruct (run P _ _).
Qed.

Lemma invocations_handle (P : Platform) (props : ScriptJobProps) (e : EventEnvelope) :
  invocations (snd (handle P props e))
  = match render (json_to_string P) (event_input e)
                 (ObjectT (environmentVariablesOverride props)) with
    | Found request =>
        repeat (createLambdaFunction props, request)
               (invocations_made
                  (lambda_invoke P (createLambdaFunction props) request))
    | Missing _ => []
    end.
Proof.
  rewrite handle_trace.
  destruct (render _ _ _) as [request | p]; [|reflexivity].
  destruct (lambda_invoke P (createLambdaFunction props) request);
    cbn [invocations_made];
    rewrite ?invocations_repeated;
    unfold notifySuccessEventBridgeTask, notifyFailureEventBridgeTask,
      new_EventBridgePutEvents;
    rewrite put_task_trace;
    destruct (render _ _ _) as [d | q]; try (destruct (put_events P _));
    cbn [invocations flat_map app repeat]; rewrite ?app_nil_r; reflexivity.
Qed.

Lemma rendered_members (to_string : json -> string) (input : json)
    (fs : list (string * Template)) (d : json) (k : string) (t : Template) :
  render to_string input (ObjectT fs) = Found d ->
  In (k, t) fs ->
  exists v, render to_string input t = Found v.
Proof.
  rewrite render_ObjectT.
  destruct (render_members to_string input fs) as [ms | p] eqn:Hms; [|discriminate].
  intros _ Hin. apply render_members_found in Hms.
  induction Hms as [|[k1 t1] [k2 v2] fs ms [_ Hv] _ IH]; [contradiction|].
  destruct Hin as [[= -> ->] | Hin]; [eauto | now apply IH].
Qed.

(** X4: an execution reads nothing of the incoming event but its detail: two
    events with the same detail, whatever their kind and source, lead to the
    same invocation and the same outgoing event.  The state machine does not
    check that the event is of the incoming kind of the job. *)
Theorem X4_only_the_detail_is_read
    (P : Platform) (props : ScriptJobProps) (e1 e2 : EventEnvelope) :
  detail e1 = detail e2 ->
  snd (handle P props e1) = snd (handle P props e2).
Proof.
  intros Hsame. rewrite !handle_trace, (render_payload_same P props _ _ Hsame).
  destruct (render _ (event_input e2) _) as [request | p]; [|reflexivity].
  destruct (lambda_invoke P (createLambdaFunction props) request)
    as [payload | err cause]; f_equal;
    unfold notifySuccessEventBridgeTask, notifyFailureEventBridgeTask,
      new_EventBridgePutEvents;
    rewrite !put_task_trace; cbn [entry_detail].
  - now rewrite (render_success_detail_same P props _ _ Hsame).
  - now rewrite (render_failure_detail_same P props _ _ Hsame).
Qed.

Lemma X3_witness :
  Source (failure_event Demo.props (JStr "t1")) = "applicationPlaneEventSource" /\
  EventBusName (failure_event Demo.props (JStr "t1")) = busArn Demo.manager.
Proof.
  destruct (@X3_event_source_and_bus (Demo.platform Demo.backend_failing)
              Demo.props Demo.event_A failureTask
              (failure_event Demo.props (JStr "t1")))
    as (Hbus & Hsource & _).
  - left. reflexivity.
  - split; [exact Hsource | exact Hbus].
Defined.

Lemma X4_witness :
  snd (handle (Demo.platform Demo.backend_structured) Demo.props Demo.event_A)
  = snd (handle (Demo.platform Demo.backend_structured) Demo.props
                Cases.event_A_offboarding).
Proof.
  apply X4_only_the_detail_is_read. reflexivity.
Defined.

(** ** The payload of the invocation *)

Lemma keys_set_nodup {V : Type} (o : list (string * V)) (k : string) (v : V) :
  NoDup (Obj.keys o) -> NoDup (Obj.keys (Obj.set k v o)).
Proof.
  unfold Obj.keys. induction o as [|[k0 v0] rest IH]; simpl; intros Hnd.
  - constructor; [intros [] | constructor].
  - inversion Hnd as [|? ? Hnotin Hrest]; subst.
    destruct (String.eqb k k0) eqn:E; simpl; [now constructor|].
    constructor; [|now apply IH].
    intros Hin. apply (keys_set rest k v k0) in Hin as [-> | Hin];
      [now rewrite String.eqb_refl in E | contradiction].
Qed.

Lemma keys_fold_nodup {V : Type} (f : string -> V) (l : list string)
    (o : list (string * V)) :
  NoDup (Obj.keys o) ->
  NoDup (Obj.keys (fold_left (fun acc n => Obj.set n (f n) acc) l o)).
Proof.
  revert o. induction l as [|n l IH]; simpl; intros o Hnd; [exact Hnd|].
  apply IH. now apply keys_set_nodup.
Qed.

Lemma rendered_keys (to_string : json -> string) (input : json)
    (fs : list (string * Template)) (ms : list (string * json)) :
  Forall2 (renders_to to_string input) fs ms -> Obj.keys ms = Obj.keys fs.
Proof.
  unfold Obj.keys. induction 1 as [|[k t] [k' v] fs ms [Hk _] _ IH]; simpl;
    [reflexivity|].
  simpl in Hk. now rewrite Hk, IH.
Qed.

Lemma override_keys_declared (props : ScriptJobProps) (name : string) :
  In name (Obj.keys (environmentVariablesOverride props)) <-> In name (declared props).
Proof.
  unfold environmentVariablesOverride, declared. rewrite !forEach_fold.
  rewrite !keys_fold, in_app_iff. simpl. intuition.
Qed.

(** X5: the payload of the invocation is an object with one member for each
    declared name and no other: a string variable with the value it has in
    the detail, a JSON variable with that value turned into a string; a name
    declared both ways, or more than once, gives one member, the JSON one. *)
Theorem X5_payload_holds_the_declared_variables
    (P : Platform) (props : ScriptJobProps) (e : EventEnvelope)
    (fn : LambdaFunction) (request : json) :
  well_configured props = true ->
  In (Invoked fn request) (snd (handle P props e)) ->
  exists members,
    request = JObj members /\
    NoDup (Obj.keys members) /\
    (forall name, In name (Obj.keys members) <-> In name (declared props)) /\
    (forall name,
        In name (declared props) ->
        exists v,
          Obj.get name (detail e) = Some v /\
          Obj.get name members
          = Some (if in_dec string_dec name
                       (names (environmentJSONVariablesFromIncomingEvent props))
                  then JStr (json_to_string P v)
                  else v)).
Proof.
  intros Hconf Hin.
  destruct (@invoked_origin _ _ _ _ _ Hin) as [_ Hrequest].
  rewrite render_ObjectT in Hrequest.
  destruct (render_members (json_to_string P) (event_input e)
                           (environmentVariablesOverride props))
    as [ms | p] eqn:Hms; [|discriminate].
  injection Hrequest as <-. apply render_members_found in Hms.
  exists ms. split; [reflexivity|].
  pose proof (rendered_keys Hms) as Hkeys. split; [|split].
  - rewrite Hkeys. unfold environmentVariablesOverride. rewrite !forEach_fold.
    apply keys_fold_nodup, keys_fold_nodup. constructor.
  - intros name. rewrite Hkeys. apply override_keys_declared.
  - intros name Hdecl.
    destruct (@payload_carries_event_variables P props e Hconf fn (JObj ms) name
                Hin Hdecl) as (v & Hv & Hsel).
    exists v. split; [exact Hv|].
    cbn [select] in Hsel. now destruct (Obj.get name ms).
Qed.

Lemma X5_witness :
  exists members v,
    JObj [("tier", JStr "premium")] = JObj members /\
    Obj.get "tier" (detail Demo.event_A) = Some v /\
    Obj.get "tier" members = Some v.
Proof.
  destruct (@X5_payload_holds_the_declared_variables
              (Demo.platform Demo.backend_structured) Demo.props Demo.event_A
              (createLambdaFunction Demo.props) (JObj [("tier", JStr "premium")]))
    as (members & Heq & _ & _ & Hvalues).
  - reflexivity.
  - left. reflexivity.
  - destruct (Hvalues "tier") as (v & Hv & Hget); [left; reflexivity|].
    destruct (in_dec string_dec "tier" _) as [[] | _] in Hget.
    exists members, v. repeat split; assumption.
Defined.

(** The payload of the invocation is resolved exactly when the detail holds
    every declared name. *)
Lemma payload_rendered (P : Platform) (props : ScriptJobProps) (e : EventEnvelope) :
  well_configured props = true ->
  (forall name, In name (declared props) -> present name e = true) <->
  exists request,
    render (json_to_string P) (event_input e)
           (ObjectT (environmentVariablesOverride props)) = Found request.
Proof.
  intros Hconf. split.
  - intros Hall. rewrite render_ObjectT.
    destruct (@render_members_total (json_to_string P) (event_input e)
                (environmentVariablesOverride props)) as [ms Hms].
    + intros k t Hin.
      pose proof (@render_override_entry P props e Hconf k t Hin) as Hr.
      destruct (@override_entries props k t Hin) as [Hd _].
      apply Hall, present_get in Hd as [v Hv]. now rewrite Hv in Hr.
    + exists (JObj ms). now rewrite Hms.
  - intros [request Hrequest] name Hdecl.
    destruct (@override_keys props name Hdecl) as [t Ht].
    destruct (@rendered_members _ _ _ _ _ _ Hrequest Ht) as [v Hv].
    pose proof (@render_override_entry P props e Hconf name t Ht) as Hr.
    apply present_get.
    destruct (Obj.get name (detail e)) as [d|]; [now exists d | congruence].
Qed.

(** X6: for a well-configured job, the function is invoked exactly when the
    detail of the event holds every declared name; every invocation is then
    of the function of the job with the same payload.  Whether the detail
    holds the identifier plays no part. *)
Theorem X6_invoked_exactly_when_declared_names_present
    (P : Platform) (props : ScriptJobProps) (e : EventEnvelope) :
  well_configured props = true ->
  (forall name, In name (declared props) -> present name e = true) <->
  exists request n,
    invocations (snd (handle P props e))
    = repeat (createLambdaFunction props, request) (S n).
Proof.
  intros Hconf. rewrite (payload_rendered P props e Hconf), invocations_handle.
  split.
  - intros [request ->]. exists request.
    destruct (lambda_invoke P (createLambdaFunction props) request);
      eexists; reflexivity.
  - intros (request & n & Hinv).
    destruct (render _ _ _) as [request' | p]; [eauto | discriminate Hinv].
Qed.

Lemma X6_witness :
  exists request n,
    invocations (snd (handle (Demo.platform Demo.backend_failing)
                             Demo.props Demo.event_C))
    = repeat (createLambdaFunction Demo.props, request) (S n).
Proof.
  apply X6_invoked_exactly_when_declared_names_present.
  - reflexivity.
  - intros name [<- | []]. reflexivity.
Defined.



(** ** The job run on its own function *)

(** What invoking the function gives, for a script that the program runs as
    it is written. *)
Lemma invoke_function_cases (H : NodeHost) (to_string : json -> string)
    (fn : LambdaFunction) (event : json) :
  template_text (fn_script fn) = true ->
  let r := exec H (fn_environment fn) (fn_script fn) in
  invoke_function H to_string fn event
  = if (fn_timeout fn <? exec_seconds r)%Z
    then Raised "Sandbox.Timedout" "Task timed out"
    else match exec_error r with
         | Some _ =>
             Raised (rejection_error H (JObj [("error", JStr (exec_stderr r))]))
                    (to_string (JObj [("error", JStr (exec_stderr r))]))
         | None => Returned (JObj [("output", JStr (exec_stdout r))])
         end.
Proof.
  intros Htext.
  unfold invoke_function, inline_handler, script_environment. cbv zeta.
  rewrite Htext.
  destruct (_ <? _)%Z; [reflexivity|].
  now destruct (exec_error _).
Qed.

Lemma segments_nonempty (s : string) : segments s <> [].
Proof.
  destruct s as [|c rest]; simpl; [discriminate|].
  destruct (Ascii.eqb c "."%char); [discriminate|].
  destruct (segments rest); discriminate.
Qed.

Section OwnFunction.
Variable H : NodeHost.
Variable to_string : json -> string.
Variable bus : list EventEntry -> PutResult.
Variable props : ScriptJobProps.
Variable e : EventEnvelope.

(** X9: on its own function, for a script without backtick, backslash,
    [${] or carriage return, which the program runs as it is written: when
    the script exits with an error, a well-formed event gets the failure
    event, which carries the fixed payload of the job and nothing the script
    printed. *)
Theorem X9_failing_script_publishes_failure_event :
  well_configured props = true ->
  well_formed props e = true ->
  publish_accepts (own_platform H to_string bus) ->
  template_text (script props) = true ->
  exec_error (exec H (fn_environment (createLambdaFunction props)) (script props))
  <> None ->
  exists id,
    Obj.get (jobIdentifierKey props) (detail e) = Some id /\
    published (snd (handle (own_platform H to_string bus) props e))
    = [(failureTask, failure_event props id)].
Proof.
  intros Hconf Hwf Hpub Htext Herr.
  destruct (well_formed_parts _ _ Hwf) as [Hkey Hdecl].
  assert (Hraised : forall request payload,
             lambda_invoke (own_platform H to_string bus)
                           (createLambdaFunction props) request
             <> Returned payload).
  { intros request payload. cbn [lambda_invoke own_platform].
    rewrite invoke_function_cases by exact Htext. cbv zeta.
    destruct (_ <? _)%Z; [discriminate|].
    change (fn_script (createLambdaFunction props)) with (script props).
    destruct (exec_error _); [discriminate | contradiction]. }
  outcomes (own_platform H to_string bus) props e Hconf;
    try match goal with
        | X : lambda_invoke _ _ _ = Returned _ |- _ =>
            exfalso; exact (Hraised _ _ X)
        end.
  - exfalso. eapply missing_contradiction; [apply Hdecl|]; eassumption.
  - exfalso. eapply missing_contradiction; eassumption.
  - exists id. split; [assumption | reflexivity].
  - exfalso. destruct (Hpub [failure_event props id]) as [r Hr]. congruence.
Qed.

(** X10: on its own function, for a script without backtick, backslash,
    [${] or carriage return, which the program runs as it is written: when
    the script exits with status zero within the timeout and the job exports
    nothing, a well-formed event gets the success event with an empty job
    output, whatever the script wrote on its standard error. *)
Theorem X10_clean_script_publishes_success_event :
  well_configured props = true ->
  well_formed props e = true ->
  publish_accepts (own_platform H to_string bus) ->
  template_text (script props) = true ->
  names (environmentVariablesToOutgoingEvent props) = [] ->
  exec_error (exec H (fn_environment (createLambdaFunction props)) (script props))
  = None ->
  (exec_seconds (exec H (fn_environment (createLambdaFunction props)) (script props))
   <= Duration_minutes 15)%Z ->
  exists id,
    Obj.get (jobIdentifierKey props) (detail e) = Some id /\
    published (snd (handle (own_platform H to_string bus) props e))
    = [(successTask, success_event props id [])].
Proof.
  intros Hconf Hwf Hpub Htext Hnone Hok Htime.
  destruct (well_formed_parts _ _ Hwf) as [Hkey Hdecl].
  assert (Hreturned : forall request err cause,
             lambda_invoke (own_platform H to_string bus)
                           (createLambdaFunction props) request
             <> Raised err cause).
  { intros request err cause. cbn [lambda_invoke own_platform].
    rewrite invoke_function_cases by exact Htext. cbv zeta.
    change (fn_script (createLambdaFunction props)) with (script props).
    change (fn_timeout (createLambdaFunction props)) with (Duration_minutes 15).
    destruct (Z.ltb_spec (Duration_minutes 15)
                (exec_seconds (exec H (fn_environment (createLambdaFunction props))
                                    (script props)))) as [Hlt | _].
    - exfalso. revert Hlt. apply Z.le_ngt. exact Htime.
    - rewrite Hok. discriminate. }
  outcomes (own_platform H to_string bus) props e Hconf;
    try match goal with
        | X : lambda_invoke _ _ _ = Raised _ _ |- _ =>
            exfalso; exact (Hreturned _ _ _ X)
        end.
  - exfalso. eapply missing_contradiction; [apply Hdecl|]; eassumption.
  - exfalso. eapply missing_contradiction; eassumption.
  - exfalso. rewrite Hnone in *. contradiction.
  - exists id. split; [assumption|].
    match goal with
    | X : exported _ _ _ |- _ =>
        unfold exported, jobOutputFields in X; rewrite Hnone in X; inversion X
    end.
    reflexivity.
  - exfalso.
    match goal with
    | X : put_events _ ?es = Rejected _ _ |- _ =>
        destruct (Hpub es) as [r Hr]; congruence
    end.
Qed.

(** X11: on its own function, for a script without backtick, backslash,
    [${] or carriage return, which the program runs as it is written: a job
    that names anything to export never publishes its success event,
    whatever the names and the event.  The function answers with the text
    the script printed, in which no member can be found, so the only event
    such a job can publish is the failure event. *)
Theorem X11_exporting_job_never_publishes_success (task : string) (entry : EventEntry) :
  template_text (script props) = true ->
  names (environmentVariablesToOutgoingEvent props) <> [] ->
  In (task, entry)
     (published (snd (handle (own_platform H to_string bus) props e))) ->
  task = failureTask.
Proof.
  intros Htext Hsome Hpub.
  destruct (@published_origin _ _ _ _ _ Hpub) as (request & _ & Hcase).
  destruct Hcase as [(payload & d & Hinv & _ & Hd & _) | (_ & _ & _ & _ & -> & _)];
    [exfalso | reflexivity].
  (* the payload is the text printed *)
  cbn [lambda_invoke own_platform] in Hinv.
  rewrite invoke_function_cases in Hinv by exact Htext. cbv zeta in Hinv.
  destruct (_ <? _)%Z; [discriminate|].
  destruct (exec_error _); [discriminate|].
  injection Hinv as <-.
  (* the first exported name has a member to resolve *)
  destruct (names (environmentVariablesToOutgoingEvent props)) as [|n l] eqn:Hnames;
    [contradiction|].
  assert (Hkey : In n (Obj.keys (jobOutputFields props))).
  { unfold jobOutputFields. rewrite Hnames. apply keys_fold. right. now left. }
  unfold Obj.keys in Hkey. apply in_map_iff in Hkey as ([k t] & Hk & Hin).
  simpl in Hk. subst k.
  destruct (jobOutput_entries _ _ _ Hin) as [_ ->].
  rewrite exportedVarObj_any in Hd.
  assert (Hjo : In ("jobOutput", ObjectT (jobOutputFields props))
                   (Obj.set "jobOutput" (ObjectT (jobOutputFields props))
                      [(jobIdentifierKey props,
                        StringAt ("$.detail." ++ jobIdentifierKey props))])).
  { apply get_In. apply get_set_same. }
  destruct (@rendered_members _ _ _ _ _ _ Hd Hjo) as [v Hv].
  destruct (@rendered_members _ _ _ _ _ _ Hv Hin) as [v' Hv'].
  cbn [render] in Hv'. rewrite read_output_any in Hv'.
  cbn [select Obj.get invoke_result] in Hv'. simpl in Hv'.
  pose proof (segments_nonempty n) as Hseg.
  destruct (segments n); [contradiction | discriminate].
Qed.
End OwnFunction.

Lemma X9_witness :
  exists id,
    Obj.get "tenantId" (detail Demo.event_A) = Some id /\
    published (snd (handle (own_platform Cases.host_failing Demo.compact Demo.bus_ok)
                           Demo.props Demo.event_A))
    = [(failureTask, failure_event Demo.props id)].
Proof.
  apply (@X9_failing_script_publishes_failure_event
           Cases.host_failing Demo.compact Demo.bus_ok Demo.props Demo.event_A).
  - reflexivity.
  - reflexivity.
  - intros es. eexists. reflexivity.
  - reflexivity.
  - discriminate.
Defined.

Lemma X10_witness :
  exists id,
    Obj.get "tenantId" (detail Demo.event_A) = Some id /\
    published (snd (handle (own_platform Cases.host_warning Demo.compact Demo.bus_ok)
                           Demo.props_no_output Demo.event_A))
    = [(successTask, success_event Demo.props_no_output id [])].
Proof.
  apply (@X10_clean_script_publishes_success_event
           Cases.host_warning Demo.compact Demo.bus_ok
           Demo.props_no_output Demo.event_A).
  - reflexivity.
  - reflexivity.
  - intros es. eexists. reflexivity.
  - reflexivity.
  - reflexivity.
  - reflexivity.
  - discriminate.
Defined.

Lemma X11_witness :
  exists task,
    In (task, failure_event Demo.props (JStr "t1"))
       (published
          (snd (handle (own_platform Cases.host_failing Demo.compact Demo.bus_ok)
                       Demo.props Demo.event_A))) /\
    task = failureTask.
Proof.
  exists "notifyFailureEventBridgeTask".
  assert (Hin : In ("notifyFailureEventBridgeTask",
                    failure_event Demo.props (JStr "t1"))
                   (published
                      (snd (handle (own_platform Cases.host_failing Demo.compact
                                                 Demo.bus_ok)
                                   Demo.props Demo.event_A))))
    by (left; reflexivity).
  split; [exact Hin|].
  apply (@X11_exporting_job_never_publishes_success
           Cases.host_failing Demo.compact Demo.bus_ok Demo.props Demo.event_A
           _ _ eq_refl ltac:(discriminate) Hin).
Defined.

(** ** The lifecycle jobs *)

Lemma lifecycle_events (P : Platform) (tl : TenantLifecycleLambdaScriptJobProps)
    (status : string) (incoming succeeded failed : DetailType)
    (e : EventEnvelope) (task : string) (entry : EventEntry) :
  In (task, entry)
     (published
        (snd (handle P (lifecycleProps tl status incoming succeeded failed) e))) ->
  exists id,
    Obj.get "tenantId" (detail e) = Some id /\
    ((task = successTask /\ DetailType_of entry = succeeded /\
      exists jobOutput,
        Detail entry = JObj [("tenantId", id); ("jobOutput", JObj jobOutput)]) \/
     (task = failureTask /\ DetailType_of entry = failed /\
      Detail entry
      = JObj [("tenantId", id);
              ("jobOutput", JObj [("tenantStatus", JStr status)])])).
Proof.
  intros Hpub.
  set (props := lifecycleProps tl status incoming succeeded failed) in *.
  assert (Hne : jobIdentifierKey props <> "jobOutput") by discriminate.
  assert (Hid : identifier (jobIdentifierKey props) = true) by reflexivity.
  destruct (@published_origin _ _ _ _ _ Hpub) as (request & _ & Hcase).
  destruct Hcase as [(payload & d & _ & -> & Hd & ->)
                    | (err & cause & d & _ & -> & Hd & ->)].
  - destruct (@success_detail_shape props Hne _ e _ Hid _ Hd)
      as (id & jobOutput & Hget & -> & _).
    exists id. split; [exact Hget|]. left. repeat split. now exists jobOutput.
  - destruct (@failure_detail_shape props Hne _ e _ Hid _ Hd) as (id & Hget & ->).
    exists id. split; [exact Hget|]. right. repeat split.
Qed.

(** X12: whatever it is configured with, the provisioning job only publishes
    provision-success and provision-failure events and the deprovisioning
    job only deprovision-success and deprovision-failure events; each
    carries the [tenantId] of the incoming event, and the failure events
    carry the fixed status of their job. *)
Theorem X12_lifecycle_jobs_publish_their_own_events
    (P : Platform) (tl : TenantLifecycleLambdaScriptJobProps)
    (e : EventEnvelope) (task : string) (entry : EventEntry) :
  (In (task, entry)
      (published
         (snd (run P (definition (provisioningStateMachine
                                    (ProvisioningLambdaScriptJob tl)))
                   (event_input e)))) ->
   exists id,
     Obj.get "tenantId" (detail e) = Some id /\
     ((task = successTask /\ DetailType_of entry = PROVISION_SUCCESS /\
       exists jobOutput,
         Detail entry = JObj [("tenantId", id); ("jobOutput", JObj jobOutput)]) \/
      (task = failureTask /\ DetailType_of entry = PROVISION_FAILURE /\
       Detail entry
       = JObj [("tenantId", id);
               ("jobOutput",
                JObj [("tenantStatus", JStr "Failed to provision tenant.")])]))) /\
  (In (task, entry)
      (published
         (snd (run P (definition (provisioningStateMachine
                                    (DeprovisioningLambdaScriptJob tl)))
                   (event_input e)))) ->
   exists id,
     Obj.get "tenantId" (detail e) = Some id /\
     ((task = successTask /\ DetailType_of entry = DEPROVISION_SUCCESS /\
       exists jobOutput,
         Detail entry = JObj [("tenantId", id); ("jobOutput", JObj jobOutput)]) \/
      (task = failureTask /\ DetailType_of entry = DEPROVISION_FAILURE /\
       Detail entry
       = JObj [("tenantId", id);
               ("jobOutput",
                JObj [("tenantStatus", JStr "Failed to deprovision tenant.")])]))).
Proof.
  split; intros Hpub; exact (lifecycle_events _ _ _ _ _ _ _ _ _ Hpub).
Qed.

Lemma X12_witness :
  exists id,
    Obj.get "tenantId" (detail Demo.event_A) = Some id /\
    Detail (failure_event Demo.props (JStr "t1"))
    = JObj [("tenantId", id);
            ("jobOutput",
             JObj [("tenantStatus", JStr "Failed to provision tenant.")])].
Proof.
  destruct (@X12_lifecycle_jobs_publish_their_own_events
              (Demo.platform Demo.backend_failing) Demo.lifecycle Demo.event_A
              failureTask (failure_event Demo.props (JStr "t1")))
    as [Hprov _].
  destruct Hprov as (id & Hid & [(Habs & _) | (_ & _ & Hdetail)]).
  - left. reflexivity.
  - discriminate Habs.
  - exists id. split; [exact Hid | exact Hdetail].
Defined.

(** ** What the invocation depends on *)

(** X13: the invocation is decided by the script, the static variables and
    the declared variables of the job alone: two jobs that agree on these
    invoke the same function with the same payload on every event, whatever
    their identifier keys, events, failure payloads and exported names.  In
    particular the provisioning and the deprovisioning job made from the
    same properties do. *)
Theorem X13_invocation_depends_on_script_and_variables
    (P : Platform) (props1 props2 : ScriptJobProps) (e : EventEnvelope) :
  script props1 = script props2 ->
  scriptEnvironmentVariables props1 = scriptEnvironmentVariables props2 ->
  environmentStringVariablesFromIncomingEvent props1
  = environmentStringVariablesFromIncomingEvent props2 ->
  environmentJSONVariablesFromIncomingEvent props1
  = environmentJSONVariablesFromIncomingEvent props2 ->
  invocations (snd (handle P props1 e)) = invocations (snd (handle P props2 e)).
Proof.
  intros Hscript Henv Hstr Hjson. rewrite !invocations_handle.
  assert (Hfn : createLambdaFunction props1 = createLambdaFunction props2)
    by (unfold createLambdaFunction; now rewrite Hscript, Henv).
  assert (Hover : environmentVariablesOverride props1
                  = environmentVariablesOverride props2)
    by (unfold environmentVariablesOverride; now rewrite Hstr, Hjson).
  now rewrite Hfn, Hover.
Qed.

Lemma X13_witness :
  invocations
    (snd (handle (Demo.platform Demo.backend_failing)
                 (lifecycleProps Demo.lifecycle "Failed to provision tenant."
                    ONBOARDING_REQUEST PROVISION_SUCCESS PROVISION_FAILURE)
                 Demo.event_A))
  = invocations
      (snd (handle (Demo.platform Demo.backend_failing)
                   (lifecycleProps Demo.lifecycle "Failed to deprovision tenant."
                      OFFBOARDING_REQUEST DEPROVISION_SUCCESS DEPROVISION_FAILURE)
                   Demo.event_A)).
Proof.
  apply X13_invocation_depends_on_script_and_variables; reflexivity.
Defined.

(** ** Names at the edge *)

(** X14: when the identifier key of a job is [jobOutput] itself, the
    identifier is lost: the detail of every outgoing event has the single
    key [jobOutput], holding the job output, and the identifier of the
    incoming event is not in it. *)
Theorem X14_identifier_key_jobOutput_is_overwritten
    (P : Platform) (props : ScriptJobProps) (e : EventEnvelope)
    (task : string) (entry : EventEntry) :
  jobIdentifierKey props = "jobOutput" ->
  In (task, entry) (published (snd (handle P props e))) ->
  (task = successTask /\
   exists jobOutput, Detail entry = JObj [("jobOutput", JObj jobOutput)]) \/
  (task = failureTask /\
   Detail entry = JObj [("jobOutput", JObj (jobFailureStatus props))]).
Proof.
  intros Hkey Hpub.
  destruct (@published_origin _ _ _ _ _ Hpub) as (request & _ & Hcase).
  destruct Hcase as [(payload & d & _ & -> & Hd & ->)
                    | (err & cause & d & _ & -> & Hd & ->)].
  - left. split; [reflexivity|].
    rewrite exportedVarObj_any, Hkey in Hd. cbn [Obj.set] in Hd.
    rewrite String.eqb_refl in Hd. rewrite render_ObjectT in Hd.
    cbn [render_members bindR] in Hd. rewrite render_ObjectT in Hd.
    destruct (render_members _ _ (jobOutputFields props)) as [jo | p];
      [|discriminate].
    cbn [bindR] in Hd. injection Hd as <-. now exists jo.
  - right. split; [reflexivity|].
    unfold failureDetail in Hd. rewrite Hkey in Hd. cbn [Obj.set] in Hd.
    rewrite String.eqb_refl in Hd. rewrite render_ObjectT in Hd.
    cbn [render_members render bindR] in Hd. now injection Hd as <-.
Qed.

Lemma X14_witness :
  Detail (failure_entry Cases.props_colliding
            (JObj [("jobOutput", JObj (jobFailureStatus Cases.props_colliding))]))
  = JObj [("jobOutput", JObj (jobFailureStatus Cases.props_colliding))] /\
  published (snd (handle (Demo.platform Demo.backend_failing)
                         Cases.props_colliding Demo.event_A))
  = [(failureTask,
      failure_entry Cases.props_colliding
        (JObj [("jobOutput", JObj (jobFailureStatus Cases.props_colliding))]))].
Proof.
  split; [|reflexivity].
  destruct (@X14_identifier_key_jobOutput_is_overwritten
              (Demo.platform Demo.backend_failing) Cases.props_colliding
              Demo.event_A failureTask
              (failure_entry Cases.props_colliding
                 (JObj [("jobOutput",
                         JObj (jobFailureStatus Cases.props_colliding))])))
    as [(Habs & _) | (_ & Hdetail)].
  - reflexivity.
  - left. reflexivity.
  - discriminate Habs.
  - exact Hdetail.
Defined.

Lemma segments_dot (a b : string) :
  all_chars identifier_char a = true ->
  segments (a ++ "." ++ b) = a :: segments b.
Proof.
  induction a as [|c a IH]; intros Hid; [reflexivity|].
  cbn [all_chars] in Hid. apply andb_true_iff in Hid as [Hc Ha].
  change (String c a ++ "." ++ b) with (String c (a ++ "." ++ b)).
  cbn [segments]. now rewrite (identifier_char_not_dot _ Hc), (IH Ha).
Qed.

Lemma override_get (props : ScriptJobProps) (name : string) :
  In name (declared props) ->
  Obj.get name (environmentVariablesOverride props)
  = Some (if in_dec string_dec name
               (names (environmentJSONVariablesFromIncomingEvent props))
          then JsonToString (ObjectAt ("$.detail." ++ name))
          else StringAt ("$.detail." ++ name)).
Proof.
  intros Hdecl. unfold environmentVariablesOverride. rewrite !forEach_fold.
  destruct (in_dec string_dec name _) as [Hjson | Hnot].
  - now apply (get_fold_in (fun n => JsonToString (ObjectAt ("$.detail." ++ n)))).
  - rewrite get_fold_notin by exact Hnot.
    apply (get_fold_in (fun n => StringAt ("$.detail." ++ n))).
    unfold declared in Hdecl.
    apply in_app_or in Hdecl as [Hin | Hin]; [exact Hin | contradiction].
Qed.

(** X15: a declared name with a dot is read as a path: for the string
    variable [a.b] the function is only invoked when the detail has a member
    [a] with a member [b], and the payload then holds that nested value
    under the key [a.b]. *)
Theorem X15_dotted_name_reads_a_nested_member
    (P : Platform) (props : ScriptJobProps) (e : EventEnvelope)
    (fn : LambdaFunction) (request : json) (a b : string) :
  identifier a = true ->
  identifier b = true ->
  In (a ++ "." ++ b) (names (environmentStringVariablesFromIncomingEvent props)) ->
  ~ In (a ++ "." ++ b) (names (environmentJSONVariablesFromIncomingEvent props)) ->
  In (Invoked fn request) (snd (handle P props e)) ->
  exists v,
    select [a; b] (JObj (detail e)) = Some v /\
    select [a ++ "." ++ b] request = Some v.
Proof.
  intros Ha Hb Hstr Hnot Hin.
  assert (Hseg : segments (a ++ "." ++ b) = [a; b]).
  { unfold identifier in Ha. apply andb_true_iff in Ha as [_ Ha].
    now rewrite (@segments_dot a b Ha), (@identifier_segments b Hb). }
  destruct (@invoked_origin _ _ _ _ _ Hin) as [_ Hrequest].
  rewrite render_ObjectT in Hrequest.
  destruct (render_members (json_to_string P) (event_input e)
                           (environmentVariablesOverride props))
    as [ms | p] eqn:Hms; [|discriminate].
  injection Hrequest as <-. apply render_members_found in Hms.
  assert (Hdecl : In (a ++ "." ++ b) (declared props))
    by (unfold declared; apply in_or_app; now left).
  pose proof (override_get props _ Hdecl) as Hget.
  destruct (in_dec string_dec (a ++ "." ++ b) _) as [Hjson | _] in Hget;
    [contradiction|].
  destruct (rendered_get _ Hms Hget) as (v & Hv & Hrender).
  cbn [render] in Hrender. rewrite read_detail_event_any, Hseg in Hrender.
  destruct (select [a; b] (JObj (detail e))) as [v'|]; [|discriminate].
  injection Hrender as ->. exists v. split; [reflexivity|].
  cbn [select]. now rewrite Hv.
Qed.

Lemma X15_witness :
  exists v,
    select ["plan"; "tier"] (JObj (detail Cases.event_nested)) = Some v /\
    select ["plan.tier"]
      (JObj [("plan.tier", JStr "premium");
             ("limits", JStr (Demo.compact (JObj [("users", JNum 5)])))])
    = Some v.
Proof.
  apply (@X15_dotted_name_reads_a_nested_member
           (Demo.platform Demo.backend_failing) Cases.props_dotted
           Cases.event_nested (createLambdaFunction Cases.props_dotted)
           (JObj [("plan.tier", JStr "premium");
                  ("limits", JStr (Demo.compact (JObj [("users", JNum 5)])))])
           "plan" "tier").
  - reflexivity.
  - reflexivity.
  - left. reflexivity.
  - intros [Habs | []]. discriminate Habs.
  - left. reflexivity.
Defined.
